(** * myShell: the command-line parser and the pipeline engine of main.cpp

    A shallow embedding of [src/main.cpp]: the two scanners ([splitByPipe],
    [tokenize]), the child side ([run_cmd]) and the parent side (the body of
    the read loop of [main]) together with the part of the kernel interface
    the shell talks to (descriptor table, [pipe], [dup2], [close], [fork],
    [waitid]).

    Conventions.  Positions in a [std::string] are [nat]; the counters of
    the source are [int] and [unsigned int], and lines are assumed shorter
    than 2^31 characters so that none of them overflows.  The one unsigned
    subtraction that does wrap, [input.size()-1], is written out
    ([size_minus_1]).  [None] stands for a run that does not produce a value:
    an uncaught [std::out_of_range] of [substr], or an exhausted iteration
    budget; the totality lemmas show that neither happens in the scanners. *)

From Stdlib Require Import ZArith Ascii String.
From stdpp Require Import gmap strings list fin_maps.

Open Scope Z_scope.
Open Scope nat_scope.

(** ** std::string *)

Module Str.

(** The double-quote character (code 34) and the null character. *)
Definition dquote : ascii := Ascii false true false false false true false false.
Definition NUL : ascii := Ascii false false false false false false false false.

Definition size (s : string) : nat := String.length s.

(** [s[i]]: for [i = size()] the standard returns a reference to the
    terminating null character. *)
Definition at_ (s : string) (i : nat) : ascii :=
  match String.get i s with Some c => c | None => NUL end.

(** [size_t] arithmetic: [size() - 1] wraps to [SIZE_MAX] on the empty
    string (64-bit [size_t]). *)
Definition SIZE_MOD : Z := 2 ^ 64.
Definition size_minus_1 (s : string) : Z := ((Z.of_nat (size s) - 1) mod SIZE_MOD)%Z.

(** [start < input.size()-1]: the [int] on the left is converted to
    [size_t], which leaves a non-negative value as it is. *)
Definition lt_size_minus_1 (start : nat) (s : string) : bool :=
  (Z.of_nat start <? size_minus_1 s)%Z.

(** [s.substr(pos, count)] with [count] the [int] difference of two
    positions: a negative [count] converts to a huge [size_t], which
    [substr] clips to the end of the string.  [pos > size()] throws. *)
Definition substr (s : string) (pos : nat) (count : Z) : option string :=
  if size s <? pos then None
  else Some (String.substring pos
               (if (count <? 0)%Z then size s - pos else Z.to_nat count) s).

(** [s.substr(pos)]. *)
Definition substr_from (s : string) (pos : nat) : option string :=
  if size s <? pos then None else Some (String.substring pos (size s - pos) s).

(** [!s.rfind(p, 0)]: [rfind] at position 0 yields 0 exactly when [s]
    starts with [p], and [npos] otherwise. *)
Definition starts_with (p s : string) : bool := String.prefix p s.

End Str.

Import Str.

(** ** The segmenter and the tokenizer *)

(** [while (i < input.size() && input[++i] != QUOTE);], with QUOTE the
    double-quote character. *)
Fixpoint skip_quoted (fuel : nat) (input : string) (i : nat) : option nat :=
  if i <? size input then
    match fuel with
    | 0 => None
    | S fuel =>
        let i := i + 1 in
        if negb (Ascii.eqb (at_ input i) dquote) then skip_quoted fuel input i
        else Some i
    end
  else Some i.

(** The [for] loop of [splitByPipe] (lines 207-224); the result is the
    final [(start, output, background)]. *)
Fixpoint splitByPipe_loop (fuel : nat) (input : string) (i start : nat)
    (output : list string) (background : bool)
  : option (nat * list string * bool) :=
  if i <? size input then
    match fuel with
    | 0 => None
    | S fuel =>
        let background :=
          if Ascii.eqb (at_ input i) "&" then true else background in
        if Ascii.eqb (at_ input i) "|" || Ascii.eqb (at_ input i) ";" then
          seg ← substr input start (Z.of_nat i - Z.of_nat start);
          let output := output ++ [seg] in
          let start := i + 1 in
          let start :=
            if (start <? size input) && Ascii.eqb (at_ input start) " "
            then start + 1 else start in
          splitByPipe_loop fuel input (i + 1) start output background
        else if Ascii.eqb (at_ input i) dquote then
          i ← skip_quoted (size input) input i;
          splitByPipe_loop fuel input (i + 1) start output background
        else splitByPipe_loop fuel input (i + 1) start output background
    end
  else Some (start, output, background).

(** [splitByPipe] (lines 203-235): the loop, the rest of the input, the
    marker. *)
Definition splitByPipe (input : string) : option (list string) :=
  '(start, output, background) ← splitByPipe_loop (size input) input 0 0 [] false;
  output ←
    (if lt_size_minus_1 start input
     then rest ← substr_from input start; Some (output ++ [rest])
     else Some output);
  Some (output ++ [if background : bool then "&" else "-"]).

(** [while (i < input.size() && input[i] != QUOTE) i++;] *)
Fixpoint find_quote (fuel : nat) (input : string) (i : nat) : option nat :=
  if (i <? size input) && negb (Ascii.eqb (at_ input i) dquote) then
    match fuel with
    | 0 => None
    | S fuel => find_quote fuel input (i + 1)
    end
  else Some i.

(** The [for] loop of [tokenize] (lines 241-259); the result is the final
    [(start, tokens)]. *)
Fixpoint tokenize_loop (fuel : nat) (input : string) (i start : nat)
    (tokens : list string) : option (nat * list string) :=
  if i <? size input then
    match fuel with
    | 0 => None
    | S fuel =>
        if Ascii.eqb (at_ input i) " " then
          let end_ := i in
          tok ← substr input start (Z.of_nat end_ - Z.of_nat start);
          let tokens := tokens ++ [tok] in
          let start := i + 1 in
          tokenize_loop fuel input (i + 1) start tokens
        else if Ascii.eqb (at_ input i) dquote then
          let i := i + 1 in
          let start := i in
          i ← find_quote (size input) input i;
          let end_ := i in
          tok ← substr input start (Z.of_nat end_ - Z.of_nat start);
          let tokens := tokens ++ [tok] in
          let i := i + 1 in
          let start := i in
          let start :=
            if (start <? size input) && Ascii.eqb (at_ input start) " "
            then start + 1 else start in
          tokenize_loop fuel input (i + 1) start tokens
        else tokenize_loop fuel input (i + 1) start tokens
    end
  else Some (start, tokens).

(** [tokenize] (lines 237-266). *)
Definition tokenize (input : string) : option (list string) :=
  '(start, tokens) ← tokenize_loop (size input) input 0 0 [];
  if lt_size_minus_1 start input
  then rest ← substr_from input start; Some (tokens ++ [rest])
  else Some tokens.


(** Lines 108-112 of [main]: the marker [splitByPipe] appends is read off
    with [piped.back()] and popped. *)
Definition parse_line (input : string) : option (list string * bool) :=
  piped ← splitByPipe input;
  let is_background := bool_decide (last piped = Some "&") in
  Some (removelast piped, is_background).

(** ** The child side: [run_cmd] *)

(** The constants of [<fcntl.h>] and [<sys/stat.h>] that the two macros
    combine with [|].  A flag word is kept as the list of its operands;
    [flags_word] gives the integer once the header supplies the values. *)
Inductive oflag :=
  O_RDONLY | O_WRONLY | O_CREAT | O_TRUNC | O_APPEND
| S_IRUSR | S_IWUSR | S_IRGRP | S_IROTH.

#[global] Instance oflag_eq_dec : EqDecision oflag.
Proof. solve_decision. Defined.

Definition FILEFLAGS : list oflag :=
  [O_CREAT; O_WRONLY; O_TRUNC; S_IRUSR; S_IWUSR; S_IRGRP; S_IROTH].
Definition FILEFLAGS_APPEND : list oflag :=
  [O_APPEND; O_WRONLY; S_IRUSR; S_IWUSR; S_IRGRP; S_IROTH].

(** [RW_PERMS] is the octal literal 0666. *)
Definition octal (a b c : Z) : Z := (a * 64 + b * 8 + c)%Z.
Definition RW_PERMS : Z := octal 6 6 6.

(** The values of the [O_*] constants are the platform's; those of the
    permission bits are fixed by POSIX. *)
Record fcntl_h := {
  o_rdonly : Z; o_wronly : Z; o_creat : Z; o_trunc : Z; o_append : Z
}.

Definition flag_bits (h : fcntl_h) (f : oflag) : Z :=
  match f with
  | O_RDONLY => o_rdonly h | O_WRONLY => o_wronly h | O_CREAT => o_creat h
  | O_TRUNC => o_trunc h | O_APPEND => o_append h
  | S_IRUSR => octal 4 0 0 | S_IWUSR => octal 2 0 0
  | S_IRGRP => octal 0 4 0 | S_IROTH => octal 0 0 4
  end.

Definition flags_word (h : fcntl_h) (flags : list oflag) : Z :=
  foldr Z.lor 0%Z (flag_bits h <$> flags).

(** Linux (asm-generic/fcntl.h) and Darwin (sys/fcntl.h). *)
Definition linux_fcntl : fcntl_h :=
  {| o_rdonly := 0; o_wronly := 1; o_creat := octal 1 0 0;
     o_trunc := 512; o_append := 1024 |}.
Definition darwin_fcntl : fcntl_h :=
  {| o_rdonly := 0; o_wronly := 1; o_creat := 512; o_trunc := 1024; o_append := 8 |}.

Definition STDIN_FILENO : Z := 0.
Definition STDOUT_FILENO : Z := 1.

(** What a child does between [fork] and the new program image, as the
    calls of [run_cmd] in program order.  The calls listed after [CExecvp]
    are made only when [execvp] returns.  [CExecvp []] is the call on an
    argument vector that holds the final null pointer alone: the name of the
    program is that null pointer, and what the call does then is not
    modelled. *)
Inductive child_call :=
| CSetpgid (pid pgid : Z)
| CClose (fd : Z)
| COpen (path : string) (flags : list oflag) (mode : option Z)
| CDup2_opened (newfd : Z)   (* dup2(fd, newfd), fd being what the open before it returned *)
| CDup2 (oldfd newfd : Z)
| CExecvp (args : list string) (* execvp(args[0], args), args without its final NULL *)
| CPrint_error (err_code : nat)
| CExit (status : Z).

(** [run_cmd] after the call of [tokenize] (lines 156-157 and 162-200):
    the calls the child makes, in order. *)
Definition run_cmd_tokens (tokenized : list string) (is_background : bool) : list child_call :=
  let setpgid := if is_background then [CSetpgid 0 0] else [] in
  let FFLAGS := FILEFLAGS in
  let ARGC := (Z.of_nat (length tokenized) + 1)%Z in
  let '(ARGC, redirect) :=
    if 1 <? length tokenized then
      let t := tokenized !!! (length tokenized - 2) in
      let back := List.last tokenized EmptyString in
      let FFLAGS := if String.eqb t ">>" then FILEFLAGS_APPEND else FFLAGS in
      let '(ARGC, out_calls) :=
        if Ascii.eqb (at_ t 0) ">"
        then ((ARGC - 2)%Z,
              [CClose STDOUT_FILENO; COpen back FFLAGS (Some RW_PERMS);
               CDup2_opened STDOUT_FILENO])
        else (ARGC, []) in
      let '(ARGC, in_calls) :=
        if String.eqb t "<"
        then ((ARGC - 2)%Z,
              [CClose STDIN_FILENO; COpen back [O_RDONLY] None;
               CDup2_opened STDIN_FILENO])
        else (ARGC, []) in
      (ARGC, out_calls ++ in_calls)
    else (ARGC, []) in
  setpgid ++ redirect
  ++ [CExecvp (take (Z.to_nat (ARGC - 1)) tokenized); CPrint_error 1; CExit (-1)].

(** [run_cmd] (lines 155-201). *)
Definition run_cmd (cmd : string) (is_background : bool) : option (list child_call) :=
  tokenized ← tokenize cmd;
  Some (run_cmd_tokens tokenized is_background).

(** The redirect a child sets up, in the vocabulary of the specification. *)
Inductive RedirectSpec :=
| NoRedirect
| OutputTruncate (path : string)
| OutputAppend (path : string)
| Input (path : string).

Definition redirect_calls (r : RedirectSpec) : list child_call :=
  match r with
  | NoRedirect => []
  | OutputTruncate path =>
      [CClose STDOUT_FILENO; COpen path FILEFLAGS (Some RW_PERMS); CDup2_opened STDOUT_FILENO]
  | OutputAppend path =>
      [CClose STDOUT_FILENO; COpen path FILEFLAGS_APPEND (Some RW_PERMS);
       CDup2_opened STDOUT_FILENO]
  | Input path =>
      [CClose STDIN_FILENO; COpen path [O_RDONLY] None; CDup2_opened STDIN_FILENO]
  end.

(** The launch of [args] with redirect [r]. *)
Definition launch (args : list string) (r : RedirectSpec) (is_background : bool)
  : list child_call :=
  (if is_background then [CSetpgid 0 0] else [])
  ++ redirect_calls r ++ [CExecvp args; CPrint_error 1; CExit (-1)].

(** ** The kernel as the shell sees it *)

(** What a descriptor refers to. *)
Inductive file := Terminal | PipeRead (k : nat) | PipeWrite (k : nat).

#[global] Instance file_eq_dec : EqDecision file.
Proof. solve_decision. Defined.

Inductive idtype_t := P_ALL | P_PID | P_PGID.
Inductive wait_option := WNOHANG | WEXITED | WSTOPPED | WCONTINUED | WNOWAIT.

#[global] Instance wait_option_eq_dec : EqDecision wait_option.
Proof. solve_decision. Defined.

Inductive chdir_target := Home | Dir (path : string).

#[global] Instance idtype_eq_dec : EqDecision idtype_t.
Proof. solve_decision. Defined.

#[global] Instance chdir_target_eq_dec : EqDecision chdir_target.
Proof. solve_decision. Defined.

(** The calls the shell process itself makes, with what they returned. *)
Inductive call :=
| Signal_SIGINT
| Dup (oldfd newfd : Z)
| Waitid (idtype : idtype_t) (id : Z) (options : list wait_option)
| Dup2 (oldfd newfd : Z)
| Printf (text : string)
| Getline (line : string)
| System (command : string)
| Chdir (target : chdir_target) (result : Z)
| Print_cwd
| Pipe (read_end write_end : Z)
| Fork (result : Z)
| Wait_NULL
| Close (fd : Z).

#[global] Instance call_eq_dec : EqDecision call.
Proof. solve_decision. Defined.

(** A forked child: the descriptor table it inherited and the code it
    goes on to run, [dup2(fd[1], STDOUT_FILENO)] first when it was forked
    inside the pipe loop, then [run_cmd(cmd, is_background)]. *)
Record child := {
  c_pid : Z;
  c_fds : gmap Z file;
  c_stdout : option Z;
  c_cmd : string;
  c_background : bool
}.

Definition child_program (c : child) : option (list child_call) :=
  calls ← run_cmd (c_cmd c) (c_background c);
  Some (match c_stdout c with
        | Some w => [CDup2 w STDOUT_FILENO]
        | None => []
        end ++ calls).

Record kernel := {
  fds : gmap Z file;             (* the shell's descriptor table *)
  npipes : nat;                  (* pipes created so far *)
  next_pid : Z;                  (* the process id the next child gets *)
  fork_fails : list bool;        (* whether the coming fork calls fail *)
  chdir_ok : chdir_target -> bool; (* the directories chdir can enter *)
  spawned : list child;          (* the children forked so far *)
  trace : list call              (* the calls made so far *)
}.

Definition with_fds (t : gmap Z file) (k : kernel) : kernel :=
  {| fds := t; npipes := npipes k; next_pid := next_pid k; fork_fails := fork_fails k;
     chdir_ok := chdir_ok k; spawned := spawned k; trace := trace k |}.

Definition log (c : call) (k : kernel) : kernel :=
  {| fds := fds k; npipes := npipes k; next_pid := next_pid k; fork_fails := fork_fails k;
     chdir_ok := chdir_ok k; spawned := spawned k; trace := trace k ++ [c] |}.

(** The lowest descriptor number not in use. *)
Fixpoint lowest_from (fuel : nat) (n : Z) (t : gmap Z file) : Z :=
  match fuel with
  | O => n
  | S fuel => if decide (t !! n = None) then n else lowest_from fuel (n + 1)%Z t
  end.

Definition lowest_free (t : gmap Z file) : Z := lowest_from (base.size t) 0%Z t.

(** State passing over the kernel. *)
Definition M (A : Type) : Type := kernel -> A * kernel.

Definition ret {A} (a : A) : M A := fun k => (a, k).
Definition bind {A B} (m : M A) (f : A -> M B) : M B :=
  fun k => let '(a, k') := m k in f a k'.

Notation "x <- m ;; f" := (bind m (fun x => f))
  (at level 100, m at next level, right associativity).
Notation "m ;; f" := (bind m (fun _ => f))
  (at level 100, right associativity).

Definition emit (c : call) : M unit := fun k => (tt, log c k).

Definition sys_dup (oldfd : Z) : M Z := fun k =>
  match fds k !! oldfd with
  | None => ((-1)%Z, log (Dup oldfd (-1)) k)
  | Some f =>
      let n := lowest_free (fds k) in
      (n, log (Dup oldfd n) (with_fds (<[n := f]> (fds k)) k))
  end.

(** [dup2] on a descriptor that is not open fails and changes nothing. *)
Definition sys_dup2 (oldfd newfd : Z) : M unit := fun k =>
  match fds k !! oldfd with
  | None => (tt, log (Dup2 oldfd newfd) k)
  | Some f => (tt, log (Dup2 oldfd newfd) (with_fds (<[newfd := f]> (fds k)) k))
  end.

Definition sys_close (fd : Z) : M unit := fun k =>
  (tt, log (Close fd) (with_fds (delete fd (fds k)) k)).

(** [pipe(fd)]: the two lowest free descriptors, read end first. *)
Definition sys_pipe : M (Z * Z) := fun k =>
  let r := lowest_free (fds k) in
  let t := <[r := PipeRead (npipes k)]> (fds k) in
  let w := lowest_free t in
  let t := <[w := PipeWrite (npipes k)]> t in
  ((r, w),
   log (Pipe r w)
     {| fds := t; npipes := S (npipes k); next_pid := next_pid k;
        fork_fails := fork_fails k; chdir_ok := chdir_ok k;
        spawned := spawned k; trace := trace k |}).

(** [fork()] as the parent sees it: -1, or the new child's process id; the
    child starts with a copy of the descriptor table.  The ids are numbered
    from [next_pid] on to tell the children apart; of the id of a child
    [fork] itself promises no more than that it is positive. *)
Definition sys_fork (stdout : option Z) (cmd : string) (is_background : bool) : M Z := fun k =>
  match fork_fails k with
  | true :: rest =>
      ((-1)%Z,
       log (Fork (-1))
         {| fds := fds k; npipes := npipes k; next_pid := next_pid k; fork_fails := rest;
            chdir_ok := chdir_ok k; spawned := spawned k; trace := trace k |})
  | _ =>
      let c := {| c_pid := next_pid k; c_fds := fds k; c_stdout := stdout;
                  c_cmd := cmd; c_background := is_background |} in
      (next_pid k,
       log (Fork (next_pid k))
         {| fds := fds k; npipes := npipes k; next_pid := (next_pid k + 1)%Z;
            fork_fails := tail (fork_fails k); chdir_ok := chdir_ok k;
            spawned := spawned k ++ [c]; trace := trace k |})
  end.

Definition sys_chdir (target : chdir_target) : M Z := fun k =>
  let r := if chdir_ok k target then 0%Z else (-1)%Z in
  (r, log (Chdir target r) k).

(** The children of the shell in the process table, and [waitid] as POSIX
    describes it: [idtype] and [id] select children, [options] names the
    state changes asked for; a selected child that has exited is collected
    when [WEXITED] is given, and leaves the table unless [WNOWAIT] is. *)
Record proc := { p_pid : Z; p_pgid : Z; p_exited : bool }.

Definition waitid_selects (idtype : idtype_t) (id : Z) (p : proc) : bool :=
  match idtype with
  | P_ALL => true
  | P_PID => (p_pid p =? id)%Z
  | P_PGID => (p_pgid p =? id)%Z
  end.

Fixpoint collect (idtype : idtype_t) (id : Z) (keep : bool) (children : list proc)
  : option proc * list proc :=
  match children with
  | [] => (None, [])
  | p :: rest =>
      if waitid_selects idtype id p && p_exited p
      then (Some p, if keep then p :: rest else rest)
      else let '(r, rest) := collect idtype id keep rest in (r, p :: rest)
  end.

Definition waitid (idtype : idtype_t) (id : Z) (options : list wait_option)
    (children : list proc) : option proc * list proc :=
  if bool_decide (WEXITED ∈ options)
  then collect idtype id (bool_decide (WNOWAIT ∈ options)) children
  else (None, children).

(** ** [main] *)

Definition ESC : string := String (Ascii.ascii_of_nat 27) EmptyString.

Definition COLORS : gmap string string :=
  list_to_map
    [("red", ESC +:+ "[0;31m"); ("bred", ESC +:+ "[1;31m");
     ("green", ESC +:+ "[0;32m"); ("bgreen", ESC +:+ "[1;32m");
     ("yellow", ESC +:+ "[0;33m"); ("byellow", ESC +:+ "[01;33m");
     ("blue", ESC +:+ "[0;34m"); ("bblue", ESC +:+ "[1;34m");
     ("magenta", ESC +:+ "[0;35m"); ("bmagenta", ESC +:+ "[1;35m");
     ("cyan", ESC +:+ "[0;36m"); ("bcyan", ESC +:+ "[1;36m");
     ("reset", ESC +:+ "[0m")].

Definition newline : string := String (Ascii.ascii_of_nat 10) EmptyString.

Definition ERROR_STR : list string :=
  ["child process could not be created." +:+ newline;
   "unexpected error during process execution." +:+ newline;
   "no such directory" +:+ newline].

Definition digit (n : nat) : string := String (Ascii.ascii_of_nat (48 + n)) EmptyString.

(** [print_error] (lines 311-313). *)
Definition error_text (err_code : nat) : string :=
  ESC +:+ "[0;31mError (" +:+ digit err_code +:+ "):" +:+ ESC +:+ "[0m "
  +:+ (ERROR_STR !!! err_code).

Definition print_error (err_code : nat) : M unit := emit (Printf (error_text err_code)).

(** [handle_cd] (lines 268-280), [handle_pwd], [handle_color] and
    [clear_screen] (lines 282-302). *)
Definition handle_cd (dir : string) : M unit :=
  if String.eqb dir EmptyString then
    _ <- sys_chdir Home ;; ret tt
  else
    r <- sys_chdir (Dir dir) ;;
    if (r =? -1)%Z then print_error 2 else ret tt.

Definition handle_pwd : M unit := emit Print_cwd.

Definition handle_color (color : string) : M unit :=
  match COLORS !! color with
  | None => emit (Printf ("[color] error: no such color found." +:+ newline))
  | Some code => emit (Printf code)
  end.

(** [std::system] runs its command in a child process of its own and waits
    for it; it is recorded as one call, and that child is not among
    [spawned], which lists the children of the shell's own [fork] calls. *)
Definition clear_screen : M unit := emit (System "clear").

(** How one pass through the body of [while (1)] ends. *)
Inductive outcome :=
| Exited (status : Z)   (* return from main *)
| Next                  (* on to the next iteration *)
| Uncaught              (* an exception leaves main *)
| Undefined.            (* the pipe loop runs on an empty [piped] *)

(** The built-in commands, lines 76-105.  [Some o]: the iteration ends
    here with [o] (by [return], [continue], or an exception); [None]:
    control reaches line 107. *)
Definition builtins (input : string) : M (option outcome) :=
  if String.eqb input "exit" then ret (Some (Exited 0))
  else if String.eqb input "clear" || String.eqb input "cls" then
    clear_screen ;; ret (Some Next)
  else if String.eqb input "cd" then
    handle_cd EmptyString ;; ret None
  else if starts_with "cd " input then
    match substr_from input 3 with
    | None => ret (Some Uncaught)
    | Some dir => handle_cd dir ;; ret (Some Next)
    end
  else if String.eqb input "pwd" || starts_with "pwd " input then
    handle_pwd ;; ret (Some Next)
  else if starts_with "color" input then
    match substr_from input 6 with
    | None => ret (Some Uncaught)
    | Some color => handle_color color ;; ret (Some Next)
    end
  else ret None.

(** The [for] loop of lines 117-139 with [iters] iterations still to run;
    the result is the content of [fd] when the loop is left. *)
Fixpoint pipe_loop (iters : nat) (i : nat) (piped : list string) (is_background : bool)
    (fd : Z * Z) : M (Z * Z) :=
  match iters with
  | O => ret fd
  | S iters =>
      fd <- sys_pipe ;;
      childpid <- sys_fork (Some (snd fd)) (piped !!! i) is_background ;;
      if (childpid <? 0)%Z then
        print_error 0 ;; ret fd
      else
        sys_dup2 (fst fd) STDIN_FILENO ;;
        sys_close (snd fd) ;;
        pipe_loop iters (i + 1) piped is_background fd
  end.

(** Lines 114-149, [fd] being what the array holds on entry: it is
    declared without an initialiser.  [wait(NULL)] is recorded as a call;
    what is listed after it is reached when that call returns, which depends
    on the children and is not decided here. *)
Definition run_pipeline (piped : list string) (is_background : bool) (fd : Z * Z)
  : M outcome :=
  match piped with
  | [] => ret Undefined
  | _ =>
      fd <- pipe_loop (length piped - 1) 0 piped is_background fd ;;
      sys_dup2 (fst fd) STDIN_FILENO ;;
      childpid <- sys_fork None (List.last piped EmptyString) is_background ;;
      (if (childpid <? 0)%Z then print_error 0 else ret tt) ;;
      (if negb is_background then emit Wait_NULL else ret tt) ;;
      sys_close (snd fd) ;;
      ret Next
  end.

(** Lines 65-74: the wait for finished children, the reset of standard
    input, the prompt and the line read. *)
Definition read_line (ORIG_STDIN : Z) (input : string) : M unit :=
  emit (Waitid P_PID 0 [WNOHANG]) ;;
  sys_dup2 ORIG_STDIN STDIN_FILENO ;;
  emit (Printf "shell >> ") ;;
  emit (Getline input).

(** One pass through the body of the read loop on the line [input]. *)
Definition iteration (ORIG_STDIN : Z) (input : string) (fd : Z * Z) : M outcome :=
  read_line ORIG_STDIN input ;;
  o <- builtins input ;;
  match o with
  | Some o => ret o
  | None =>
      match parse_line input with
      | None => ret Uncaught
      | Some (piped, is_background) => run_pipeline piped is_background fd
      end
  end.

(** The read loop on the lines typed, each with the indeterminate content
    of [fd] for its iteration. *)
Fixpoint read_loop (ORIG_STDIN : Z) (lines : list (string * (Z * Z))) : M outcome :=
  match lines with
  | [] => ret Next
  | (input, fd) :: lines =>
      o <- iteration ORIG_STDIN input fd ;;
      match o with
      | Next => read_loop ORIG_STDIN lines
      | _ => ret o
      end
  end.

(** [main]: the start-up lines 53-56, then the loop. *)
Definition main (lines : list (string * (Z * Z))) : M outcome :=
  emit Signal_SIGINT ;;
  ORIG_STDIN <- sys_dup STDIN_FILENO ;;
  read_loop ORIG_STDIN lines.

(** A fresh process: the three standard descriptors on the terminal. *)
Definition boot (first_pid : Z) : kernel :=
  {| fds := {[ 0%Z := Terminal; 1%Z := Terminal; 2%Z := Terminal ]};
     npipes := 0; next_pid := first_pid; fork_fails := [];
     chdir_ok := fun _ => true; spawned := []; trace := [] |}.

(** ** Character-by-character reading of the two scanners

    [segs] and [toks] follow the same loops one character at a time, with
    the text accumulated since [start] carried along instead of the two
    indices.  They are not part of the program: [splitByPipe_segs] and
    [tokenize_toks] below show that the index loops compute them. *)

Definition is_sep (c : ascii) : bool := Ascii.eqb c "|" || Ascii.eqb c ";".

Definition snoc (s : string) (c : ascii) : string := s +:+ String c EmptyString.

Definition begins_with_space (s : string) : bool :=
  match s with String c _ => Ascii.eqb c " " | EmptyString => false end.

(** [inq]: inside a quoted span; [skip]: [start] is one past the current
    position, the coming character being the space dropped after a
    separator. *)
Fixpoint segs (s : string) (inq skip : bool) (cur : string)
    (out : list string) (bg : bool) : string * list string * bool :=
  match s with
  | EmptyString => (cur, out, bg)
  | String c r =>
      if inq then segs r (negb (Ascii.eqb c dquote)) false (snoc cur c) out bg
      else
        let bg := if Ascii.eqb c "&" then true else bg in
        if is_sep c then segs r false (begins_with_space r) EmptyString (out ++ [cur]) bg
        else if Ascii.eqb c dquote then segs r true false (snoc cur c) out bg
        else segs r false false (if skip then cur else snoc cur c) out bg
  end.

Inductive tmode := TNormal | TQuoted | TAfterQuote.

(** The result is the token list and the text from [start] to the end of
    the input; after an unterminated quote [start] lies beyond the end and
    there is no such text. *)
Fixpoint toks (s : string) (m : tmode) (cur : string) (out : list string)
  : list string * option string :=
  match s with
  | EmptyString =>
      match m with
      | TQuoted => (out ++ [cur], None)
      | _ => (out, Some cur)
      end
  | String c r =>
      match m with
      | TNormal =>
          if Ascii.eqb c " " then toks r TNormal EmptyString (out ++ [cur])
          else if Ascii.eqb c dquote then toks r TQuoted EmptyString out
          else toks r TNormal (snoc cur c) out
      | TQuoted =>
          if Ascii.eqb c dquote then toks r TAfterQuote EmptyString (out ++ [cur])
          else toks r TQuoted (snoc cur c) out
      | TAfterQuote =>
          if Ascii.eqb c " " then toks r TNormal EmptyString out
          else toks r TNormal (String c EmptyString) out
      end
  end.

(** ** Auxiliary definitions for the statements and the proofs *)

(** [noq s]: no double quote occurs in [s]. *)
Fixpoint noq (s : string) : bool :=
  match s with
  | EmptyString => true
  | String c r => negb (Ascii.eqb c dquote) && noq r
  end.

(** Where [start] stands relative to the text read so far. *)
Definition seg_start_ok (skip : bool) (start : nat) (pre0 cur rest : string) : Prop :=
  if skip
  then start = size pre0 + 1 /\ cur = EmptyString /\ begins_with_space rest = true
  else start = size pre0.

(** What [splitByPipe] returns, read off [segs]. *)
Definition segments_of (input : string) : list string :=
  let '(cur, out, bg) := segs input false false EmptyString [] false in
  (if lt_size_minus_1 (size input - size cur) input then out ++ [cur] else out)
  ++ [if bg : bool then "&" else "-"].

(** What [tokenize] returns, read off [toks]. *)
Definition tokens_of (input : string) : list string :=
  match toks input TNormal EmptyString [] with
  | (out, Some cur) =>
      if lt_size_minus_1 (size input - size cur) input then out ++ [cur] else out
  | (out, None) => out
  end.

Definition q (s : string) : string := String dquote (s +:+ String dquote EmptyString).

Fixpoint all_chars (P : ascii -> bool) (s : string) : bool :=
  match s with
  | EmptyString => true
  | String c r => P c && all_chars P r
  end.

(** A command text: no separator and no double quote in it. *)
Definition plain_char (c : ascii) : bool := negb (is_sep c) && negb (Ascii.eqb c dquote).
Definition plain (s : string) : bool := all_chars plain_char s.

Fixpoint has_amp (s : string) : bool :=
  match s with
  | EmptyString => false
  | String c r => Ascii.eqb c "&" || has_amp r
  end.

(** [&] outside the quoted spans, in the words of the specification. *)
Fixpoint unquoted_amp (inq : bool) (s : string) : bool :=
  match s with
  | EmptyString => false
  | String c r =>
      if inq then unquoted_amp (negb (Ascii.eqb c dquote)) r
      else Ascii.eqb c "&" || unquoted_amp (Ascii.eqb c dquote) r
  end.

Definition drop_space (s : string) : string :=
  match s with
  | String c r => if Ascii.eqb c " " then r else s
  | EmptyString => s
  end.

(** [join first [(s1, c1); ...; (sn, cn)]] is the line
    [first s1 c1 ... sn cn]. *)
Fixpoint concat_more (more : list (ascii * string)) : string :=
  match more with
  | [] => EmptyString
  | (sp, cm) :: more => String sp (cm +:+ concat_more more)
  end.

Definition join (first : string) (more : list (ascii * string)) : string :=
  first +:+ concat_more more.

Definition texts (first : string) (more : list (ascii * string)) : list string :=
  first :: map (fun x => drop_space (snd x)) more.

Definition well_formed (first : string) (more : list (ascii * string)) : Prop :=
  plain first = true /\ Forall (fun x => is_sep (fst x) = true /\ plain (snd x) = true) more.

Definition has_amp_more (more : list (ascii * string)) : bool :=
  existsb (fun x => has_amp (snd x)) more.

Fixpoint spaces (n : nat) : string :=
  match n with
  | O => EmptyString
  | S n => String " " (spaces n)
  end.

(** The resolver in the words of the specification. *)
Definition resolve (tokens : list string) : list string * RedirectSpec :=
  let n := length tokens in
  let t := tokens !!! (n - 2) in
  let back := List.last tokens EmptyString in
  if String.eqb t ">>" then (take (n - 2) tokens, OutputAppend back)
  else if Ascii.eqb (at_ t 0) ">" then (take (n - 2) tokens, OutputTruncate back)
  else if String.eqb t "<" then (take (n - 2) tokens, Input back)
  else (tokens, NoRedirect).

(** No failure of [fork] is scheduled and process ids are positive. *)
Definition forks_succeed (k : kernel) : Prop := fork_fails k = [] /\ (0 < next_pid k)%Z.

(** A computation only adds calls to the trace. *)
Definition extends {A} (m : M A) : Prop :=
  forall k, exists t, trace (m k).2 = trace k ++ t.

(** ** Command texts built from arguments *)

(** A word: no space and no double quote in it. *)
Definition word_char (c : ascii) : bool := negb (Ascii.eqb c " ") && negb (Ascii.eqb c dquote).
Definition word (s : string) : bool := all_chars word_char s.

(** An argument as typed: bare, or between double quotes. *)
Inductive arg := Bare (w : string) | Quoted (s : string).

Definition show (a : arg) : string := match a with Bare w => w | Quoted s => q s end.
Definition value (a : arg) : string := match a with Bare w => w | Quoted s => s end.
Definition arg_ok (a : arg) : bool := match a with Bare w => word w | Quoted s => noq s end.

(** Whether the final guard of [tokenize] lets the last argument through. *)
Definition kept_at_end (a : arg) : bool :=
  match a with Bare w => 2 <=? size w | Quoted _ => true end.

(** [join_args [a1; ...; an] rest] is the text [a1 ... an rest], one space
    after each [ai]. *)
Fixpoint join_args (args : list arg) (rest : string) : string :=
  match args with
  | [] => rest
  | a :: args => show a +:+ String " " (join_args args rest)
  end.

(** The three redirect operators [run_cmd] knows. *)
Inductive redirect_op := To_file | Append_to_file | From_file.

Definition op_text (op : redirect_op) : string :=
  match op with To_file => ">" | Append_to_file => ">>" | From_file => "<" end.

Definition op_spec (op : redirect_op) (path : string) : RedirectSpec :=
  match op with
  | To_file => OutputTruncate path
  | Append_to_file => OutputAppend path
  | From_file => Input path
  end.

(** The outcome the model gives a line, read off its text.  [wait(NULL)]
    is a call that returns in [run_pipeline]; [Next] is the outcome of every
    pass that has not ended before the end of the loop body. *)
Definition line_outcome (input : string) : outcome :=
  if String.eqb input "exit" then Exited 0
  else if String.eqb input "color" then Uncaught
  else if (size input =? 1) && negb (is_sep (at_ input 0)) then Undefined
  else Next.

(** What [handle_color] prints. *)
Definition color_text (color : string) : string :=
  match COLORS !! color with
  | Some code => code
  | None => "[color] error: no such color found." +:+ newline
  end.

(** The calls of [handle_cd]. *)
Definition cd_calls (k : kernel) (dir : string) : list call :=
  match dir with
  | EmptyString => [Chdir Home (if chdir_ok k Home then 0 else -1)%Z]
  | _ =>
      if chdir_ok k (Dir dir) then [Chdir (Dir dir) 0]
      else [Chdir (Dir dir) (-1); Printf (error_text 2)]
  end.

(** The number of [wait(NULL)] calls in a trace. *)
Definition waits (t : list call) : nat := count_occ call_eq_dec t Wait_NULL.

(** A computation adds [n] calls of [wait(NULL)] to the trace. *)
Definition adds_waits {A} (n : nat) (m : M A) : Prop :=
  forall k, exists t, trace (m k).2 = trace k ++ t /\ waits t = n.

(** What the [j]-th child of a pipeline started in state [k] finds when it
    starts to run: its segment, the flag, what its standard input is, the
    descriptors of the shell it inherits, and the write end it is to put on
    its standard output. *)
Definition wired (k : kernel) (piped : list string) (is_background : bool)
    (j : nat) (c : child) : Prop :=
  c_cmd c = piped !!! j /\
  c_background c = is_background /\
  c_fds c !! STDIN_FILENO
  = match j with
    | O => fds k !! STDIN_FILENO
    | S j' => Some (PipeRead (npipes k + j'))
    end /\
  (forall d f, d <> STDIN_FILENO -> fds k !! d = Some f -> c_fds c !! d = Some f) /\
  if j + 1 <? length piped
  then exists w, c_stdout c = Some w /\ c_fds c !! w = Some (PipeWrite (npipes k + j))
  else c_stdout c = None.

(** A word of a command typed the usual way: no space, no double quote
    and no separator in it. *)
Definition cmd_char (c : ascii) : bool := word_char c && negb (is_sep c).
Definition cmd_word (w : string) : bool := all_chars cmd_char w.

(** The words [ws], a space after each, and then [rest]. *)
Definition cmd_text (ws : list string) (rest : string) : string :=
  join_args (map Bare ws) rest.

(** The line [c1 | c2 | ... | last]: every command but the last is typed
    with a space after each of its words, then the bar and a space. *)
Fixpoint usual_line (cmds : list (list string)) (last : string) : string :=
  match cmds with
  | [] => last
  | ws :: cmds => cmd_text ws EmptyString +:+ String "|" (String " " (usual_line cmds last))
  end.

(** The text with every semicolon turned into a bar. *)
Fixpoint bars (s : string) : string :=
  match s with
  | EmptyString => EmptyString
  | String c r => String (if Ascii.eqb c ";" then "|"%char else c) (bars r)
  end.

(** ** Facts about strings *)

Section string_facts.
Implicit Types (a b s : string) (c : ascii).

Lemma app_cons c a b : String c a +:+ b = String c (a +:+ b).
Proof. reflexivity. Qed.

Lemma app_nil_l b : EmptyString +:+ b = b.
Proof. reflexivity. Qed.

Lemma size_cons c a : size (String c a) = S (size a).
Proof. reflexivity. Qed.

Lemma size_app a b : size (a +:+ b) = size a + size b.
Proof.
  induction a as [|c a IH]; [done|].
  by rewrite app_cons, !size_cons, IH.
Qed.

Lemma size_snoc a c : size (snoc a c) = S (size a).
Proof. unfold snoc. rewrite size_app, size_cons. unfold size; simpl. lia. Qed.

Lemma app_nil_r a : a +:+ EmptyString = a.
Proof. induction a as [|c a IH]; [done|]. by rewrite app_cons, IH. Qed.

Lemma app_assoc a b s : (a +:+ b) +:+ s = a +:+ (b +:+ s).
Proof. induction a as [|c a IH]; [done|]. by rewrite !app_cons, IH. Qed.

Lemma snoc_app a c b : snoc a c +:+ b = a +:+ String c b.
Proof. unfold snoc. by rewrite app_assoc. Qed.

Lemma at_cons_S c a k : at_ (String c a) (S k) = at_ a k.
Proof. reflexivity. Qed.

Lemma at_app_r a b k : at_ (a +:+ b) (size a + k) = at_ b k.
Proof.
  induction a as [|c a IH]; [done|].
  by rewrite app_cons, size_cons, Nat.add_succ_l, at_cons_S.
Qed.

Lemma at_0 c a : at_ (String c a) 0 = c.
Proof. reflexivity. Qed.

Lemma at_1 c c' a : at_ (String c (String c' a)) 1 = c'.
Proof. reflexivity. Qed.

Lemma at_app_head a c b : at_ (a +:+ String c b) (size a) = c.
Proof. rewrite <- (Nat.add_0_r (size a)). by rewrite at_app_r. Qed.

Lemma at_end s k : size s <= k -> at_ s k = NUL.
Proof.
  revert k. induction s as [|c s IH]; intros k Hk.
  - by destruct k.
  - rewrite size_cons in Hk. destruct k as [|k]; [lia|].
    rewrite at_cons_S. apply IH. lia.
Qed.

Lemma substring_app_skip a b n :
  String.substring (size a) n (a +:+ b) = String.substring 0 n b.
Proof.
  induction a as [|c a IH]; [done|].
  rewrite app_cons, size_cons. exact IH.
Qed.

Lemma substring_prefix a b : String.substring 0 (size a) (a +:+ b) = a.
Proof.
  induction a as [|c a IH].
  - by destruct b.
  - rewrite app_cons, size_cons. simpl. by rewrite IH.
Qed.

Lemma substring_all a : String.substring 0 (size a) a = a.
Proof. pose proof (substring_prefix a EmptyString) as H. by rewrite app_nil_r in H. Qed.

(** [substr] on an input cut as [a ++ w ++ b] returns [w]. *)
Lemma substr_middle a w b :
  substr (a +:+ w +:+ b) (size a)
    (Z.of_nat (size a + size w) - Z.of_nat (size a)) = Some w.
Proof.
  unfold substr. rewrite !size_app.
  destruct (Nat.ltb_spec (size a + (size w + size b)) (size a)); [lia|].
  destruct (Z.ltb_spec (Z.of_nat (size a + size w) - Z.of_nat (size a)) 0); [lia|].
  replace (Z.to_nat _) with (size w) by lia.
  by rewrite substring_app_skip, substring_prefix.
Qed.

Lemma substr_from_suffix a w : substr_from (a +:+ w) (size a) = Some w.
Proof.
  unfold substr_from. rewrite size_app.
  destruct (Nat.ltb_spec (size a + size w) (size a)); [lia|].
  replace (size a + size w - size a) with (size w) by lia.
  by rewrite substring_app_skip, substring_all.
Qed.

End string_facts.


Ltac str_eq :=
  unfold snoc;
  repeat (rewrite app_assoc || rewrite app_cons || rewrite app_nil_l || rewrite app_nil_r);
  reflexivity.

Ltac sizes :=
  unfold snoc in *;
  repeat (rewrite size_app in * || rewrite size_cons in * );
  change (size EmptyString) with 0 in *; try lia.

(** A text either has a first double quote or has none. *)
Lemma first_quote (r : string) :
  (exists qd r2, r = qd +:+ String dquote r2 /\ noq qd = true) \/ noq r = true.
Proof.
  induction r as [|c r IH]; [by right|].
  destruct (Ascii.eqb_spec c dquote) as [->|Hc].
  - left. by exists EmptyString, r.
  - destruct IH as [(qd & r2 & -> & Hq)|Hn].
    + left. exists (String c qd), r2. split; [done|].
      simpl. rewrite Hq. by destruct (Ascii.eqb_spec c dquote).
    + right. simpl. rewrite Hn. by destruct (Ascii.eqb_spec c dquote).
Qed.

Lemma noq_cons c r : noq (String c r) = true -> c <> dquote /\ noq r = true.
Proof. simpl. destruct (Ascii.eqb_spec c dquote); naive_solver. Qed.

Section splitByPipe_refinement.

Lemma skip_quoted_S fuel input i :
  skip_quoted (S fuel) input i =
    if i <? size input then
      if negb (Ascii.eqb (at_ input (i + 1)) dquote)
      then skip_quoted fuel input (i + 1) else Some (i + 1)
    else Some i.
Proof. reflexivity. Qed.

Lemma skip_quoted_done fuel input i : size input <= i -> skip_quoted fuel input i = Some i.
Proof.
  intros H. destruct fuel; simpl;
    destruct (Nat.ltb_spec i (size input)); (lia || done).
Qed.

(** The span is closed: the scan stops on the closing quote. *)
Lemma skip_quoted_closed qd : forall pre c0 r2 fuel,
  noq qd = true -> size qd < fuel ->
  skip_quoted fuel (pre +:+ String c0 (qd +:+ String dquote r2)) (size pre)
  = Some (size pre + 1 + size qd).
Proof.
  induction qd as [|c1 qd IH]; intros pre c0 r2 fuel Hq Hf.
  - destruct fuel as [|fuel]; [sizes|]. rewrite skip_quoted_S.
    destruct (Nat.ltb_spec (size pre) (size (pre +:+ String c0 (EmptyString +:+ String dquote r2))));
      [|sizes].
    rewrite at_app_r, app_nil_l, at_1. simpl. f_equal. sizes.
  - destruct fuel as [|fuel]; [sizes|]. rewrite skip_quoted_S.
    destruct (Nat.ltb_spec (size pre) (size (pre +:+ String c0 (String c1 qd +:+ String dquote r2))));
      [|sizes].
    apply noq_cons in Hq as [Hc Hq].
    rewrite at_app_r, app_cons, at_1.
    destruct (Ascii.eqb_spec c1 dquote); [done|]. simpl.
    replace (pre +:+ String c0 (String c1 (qd +:+ String dquote r2)))
      with (snoc pre c0 +:+ String c1 (qd +:+ String dquote r2)) by str_eq.
    replace (size pre + 1) with (size (snoc pre c0)) by sizes.
    rewrite IH; [|done|sizes]. f_equal. sizes.
Qed.

(** The span is not closed: the scan runs to the end of the input. *)
Lemma skip_quoted_open qd : forall pre c0 fuel,
  noq qd = true -> size qd < fuel ->
  skip_quoted fuel (pre +:+ String c0 qd) (size pre) = Some (size (pre +:+ String c0 qd)).
Proof.
  induction qd as [|c1 qd IH]; intros pre c0 fuel Hq Hf.
  - destruct fuel as [|fuel]; [sizes|]. rewrite skip_quoted_S.
    destruct (Nat.ltb_spec (size pre) (size (pre +:+ String c0 EmptyString))); [|sizes].
    rewrite at_end by sizes. simpl.
    rewrite skip_quoted_done by sizes. f_equal. sizes.
  - destruct fuel as [|fuel]; [sizes|]. rewrite skip_quoted_S.
    destruct (Nat.ltb_spec (size pre) (size (pre +:+ String c0 (String c1 qd)))); [|sizes].
    apply noq_cons in Hq as [Hc Hq].
    rewrite at_app_r, at_1.
    destruct (Ascii.eqb_spec c1 dquote); [done|]. simpl.
    replace (pre +:+ String c0 (String c1 qd)) with (snoc pre c0 +:+ String c1 qd) by str_eq.
    replace (size pre + 1) with (size (snoc pre c0)) by sizes.
    rewrite IH; [done|done|sizes].
Qed.

Lemma segs_quoted_closed qd : forall r2 sk cur out bg,
  noq qd = true ->
  segs (qd +:+ String dquote r2) true sk cur out bg
  = segs r2 false false (cur +:+ qd +:+ String dquote EmptyString) out bg.
Proof.
  induction qd as [|c qd IH]; intros r2 sk cur out bg Hq.
  - rewrite app_nil_l. simpl. done.
  - apply noq_cons in Hq as [Hc Hq]. rewrite app_cons. simpl.
    destruct (Ascii.eqb_spec c dquote); [done|]. simpl.
    rewrite IH by done. f_equal. str_eq.
Qed.

Lemma segs_quoted_open qd : forall sk cur out bg,
  noq qd = true -> segs qd true sk cur out bg = (cur +:+ qd, out, bg).
Proof.
  induction qd as [|c qd IH]; intros sk cur out bg Hq.
  - simpl. by rewrite app_nil_r.
  - apply noq_cons in Hq as [Hc Hq]. simpl.
    destruct (Ascii.eqb_spec c dquote); [done|]. simpl.
    rewrite IH by done. f_equal. f_equal. str_eq.
Qed.

Lemma splitByPipe_loop_done fuel input i start out bg :
  size input <= i -> splitByPipe_loop fuel input i start out bg = Some (start, out, bg).
Proof.
  intros H. destruct fuel; simpl;
    destruct (Nat.ltb_spec i (size input)); (lia || done).
Qed.

Lemma begins_with_space_at a c r :
  (size a + 1 <? size (a +:+ String c r))
  && Ascii.eqb (at_ (a +:+ String c r) (size a + 1)) " "
  = begins_with_space r.
Proof.
  destruct r as [|c2 r].
  - destruct (Nat.ltb_spec (size a + 1) (size (a +:+ String c EmptyString))); [sizes|done].
  - destruct (Nat.ltb_spec (size a + 1) (size (a +:+ String c (String c2 r)))); [|sizes].
    by rewrite at_app_r, at_1.
Qed.

Lemma is_sep_inv c : is_sep c = true -> c <> "&"%char /\ c <> dquote /\ c <> " "%char.
Proof.
  unfold is_sep. intros H. apply orb_true_iff in H as [H|H];
    apply Ascii.eqb_eq in H; subst c; by repeat split.
Qed.

(** The loop of [splitByPipe], started at position [size pre0 + size cur]
    of the input [pre0 ++ cur ++ rest], ends in the state [segs] computes
    from [rest]. *)
Lemma splitByPipe_loop_segs n : forall rest pre0 cur skip out bg fuel start,
  size rest <= n -> size rest <= fuel ->
  seg_start_ok skip start pre0 cur rest ->
  exists p,
    pre0 +:+ cur +:+ rest = p +:+ (segs rest false skip cur out bg).1.1 /\
    splitByPipe_loop fuel (pre0 +:+ cur +:+ rest) (size pre0 + size cur) start out bg
    = Some (size p, (segs rest false skip cur out bg).1.2,
            (segs rest false skip cur out bg).2).
Proof.
  induction n as [|n IH]; intros rest pre0 cur skip out bg fuel start Hn Hf Hs.
  - destruct rest as [|c r]; [|sizes].
    destruct skip; [by destruct Hs as (_ & _ & ?)|].
    exists pre0. simpl. split; [str_eq|].
    rewrite splitByPipe_loop_done by sizes. by rewrite Hs.
  - destruct rest as [|c r].
    { destruct skip; [by destruct Hs as (_ & _ & ?)|].
      exists pre0. simpl. split; [str_eq|].
      rewrite splitByPipe_loop_done by sizes. by rewrite Hs. }
    destruct fuel as [|fuel]; [sizes|].
    assert (Hn' : size r <= n) by sizes.
    assert (Hf' : size r <= fuel) by sizes.
    set (input := pre0 +:+ cur +:+ String c r).
    assert (Hin : input = (pre0 +:+ cur) +:+ String c r) by (subst input; str_eq).
    assert (Hi : size pre0 + size cur = size (pre0 +:+ cur)) by sizes.
    cbn [splitByPipe_loop].
    destruct (Nat.ltb_spec (size pre0 + size cur) (size input)) as [_|Hge];
      [|subst input; sizes].
    assert (Hat : at_ input (size pre0 + size cur) = c).
    { rewrite Hin, Hi. apply at_app_head. }
    rewrite Hat.
    destruct skip.
    + (* the space dropped after a separator *)
      destruct Hs as (-> & -> & Hsp). simpl in Hsp.
      apply Ascii.eqb_eq in Hsp. subst c. simpl.
      destruct (IH r (snoc pre0 " ") EmptyString false out bg fuel (size pre0 + 1))
        as (p & Hp & Hl); [done|done|simpl; sizes|].
      exists p. split.
      * rewrite <- Hp. str_eq.
      * rewrite <- Hl. f_equal; [subst input; str_eq|sizes].
    + unfold seg_start_ok in Hs. subst start.
      cbn [segs]. fold (is_sep c).
      destruct (is_sep c) eqn:Hsep.
      * (* a separator ends the segment *)
        destruct (is_sep_inv c Hsep) as (Hamp & Hq & Hspc).
        destruct (Ascii.eqb_spec c "&"); [done|].
        replace (substr input (size pre0) (Z.of_nat (size pre0 + size cur) - Z.of_nat (size pre0)))
          with (Some cur) by (symmetry; apply substr_middle).
        cbn [mbind option_bind].
        assert (Hsk : (size pre0 + size cur + 1 <? size input)
                      && Ascii.eqb (at_ input (size pre0 + size cur + 1)) " "
                      = begins_with_space r).
        { rewrite Hin, Hi. apply begins_with_space_at. }
        rewrite Hsk.
        destruct (IH r (snoc (pre0 +:+ cur) c) EmptyString (begins_with_space r)
                    (out ++ [cur]) bg fuel
                    (if begins_with_space r then size pre0 + size cur + 1 + 1
                     else size pre0 + size cur + 1))
          as (p & Hp & Hl); [done|done| |].
        { unfold seg_start_ok. destruct (begins_with_space r); [repeat split|]; sizes. }
        exists p. split.
        -- rewrite <- Hp. str_eq.
        -- rewrite <- Hl. f_equal; [subst input; str_eq|sizes].
      * destruct (Ascii.eqb_spec c dquote) as [->|Hnq].
        -- (* a quoted span is skipped as a whole *)
           destruct (Ascii.eqb_spec dquote "&"); [done|].
           destruct (first_quote r) as [(qd & r2 & -> & Hqd)|Hopen].
           ++ replace (skip_quoted (size input) input (size pre0 + size cur))
                with (Some (size pre0 + size cur + 1 + size qd)).
              2:{ rewrite Hin, Hi. symmetry. apply skip_quoted_closed; [done|].
                  rewrite <- Hin. subst input. sizes. }
              cbn [mbind option_bind].
              rewrite segs_quoted_closed by done.
              destruct (IH r2 pre0 (snoc cur dquote +:+ qd +:+ String dquote EmptyString)
                          false out bg fuel (size pre0))
                as (p & Hp & Hl); [sizes|sizes|done|].
              exists p. split.
              ** rewrite <- Hp. str_eq.
              ** rewrite <- Hl. f_equal; [subst input; str_eq|sizes].
           ++ replace (skip_quoted (size input) input (size pre0 + size cur))
                with (Some (size input)).
              2:{ rewrite Hin, Hi. symmetry. apply skip_quoted_open; [done|].
                  rewrite <- Hin. subst input. sizes. }
              cbn [mbind option_bind].
              rewrite splitByPipe_loop_done by lia.
              rewrite segs_quoted_open by done.
              exists pre0. simpl. split; [subst input; str_eq|done].
        -- (* any other character *)
           destruct (IH r pre0 (snoc cur c) false out
                       (if Ascii.eqb c "&" then true else bg) fuel (size pre0))
             as (p & Hp & Hl); [done|done|done|].
           exists p. split.
           ++ rewrite <- Hp. str_eq.
           ++ rewrite <- Hl. f_equal; [subst input; str_eq|sizes].
Qed.

Lemma lt_size_minus_1_ge start s :
  1 <= size s -> size s <= start + 1 -> lt_size_minus_1 start s = false.
Proof.
  intros H1 H2. unfold lt_size_minus_1, size_minus_1, SIZE_MOD.
  apply Z.ltb_ge.
  assert (Hm : ((Z.of_nat (size s) - 1) mod 2 ^ 64 <= Z.of_nat (size s) - 1)%Z)
    by (apply Z.mod_le; lia).
  lia.
Qed.

Lemma lt_size_minus_1_lt start s :
  start + 1 < size s -> (Z.of_nat (size s) <= 2 ^ 64)%Z -> lt_size_minus_1 start s = true.
Proof.
  intros H1 H2. unfold lt_size_minus_1, size_minus_1, SIZE_MOD.
  apply Z.ltb_lt. rewrite Z.mod_small by lia. lia.
Qed.

Lemma splitByPipe_segs input : splitByPipe input = Some (segments_of input).
Proof.
  unfold splitByPipe, segments_of.
  destruct (splitByPipe_loop_segs (size input) input EmptyString EmptyString false [] false
              (size input) 0) as (p & Hp & Hl); [done|done|done|].
  rewrite !app_nil_l in Hl, Hp. change (size EmptyString + size EmptyString) with 0 in Hl.
  rewrite Hl. cbn [mbind option_bind].
  destruct (segs input false false EmptyString [] false) as [[cur out] bg].
  simpl in Hp. simpl.
  assert (Hsz : size input - size cur = size p) by (rewrite Hp at 1; sizes).
  rewrite Hsz.
  destruct (lt_size_minus_1 (size p) input); [|done].
  rewrite Hp at 1. by rewrite substr_from_suffix.
Qed.

End splitByPipe_refinement.

Section tokenize_refinement.

Lemma find_quote_done fuel input i : size input <= i -> find_quote fuel input i = Some i.
Proof.
  intros H. destruct fuel; simpl;
    destruct (Nat.ltb_spec i (size input)); (lia || done).
Qed.

Lemma find_quote_closed qd : forall pre r2 fuel,
  noq qd = true -> size qd <= fuel ->
  find_quote fuel (pre +:+ qd +:+ String dquote r2) (size pre) = Some (size pre + size qd).
Proof.
  induction qd as [|c1 qd IH]; intros pre r2 fuel Hq Hf.
  - rewrite app_nil_l.
    destruct fuel; cbn [find_quote]; rewrite at_app_head; simpl;
      rewrite andb_false_r; f_equal; sizes.
  - destruct fuel as [|fuel]; [sizes|]. cbn [find_quote].
    apply noq_cons in Hq as [Hc Hq].
    rewrite app_cons, at_app_head.
    destruct (Nat.ltb_spec (size pre) (size (pre +:+ String c1 (qd +:+ String dquote r2))));
      [|sizes].
    destruct (Ascii.eqb_spec c1 dquote); [done|]. simpl.
    replace (pre +:+ String c1 (qd +:+ String dquote r2))
      with (snoc pre c1 +:+ qd +:+ String dquote r2) by str_eq.
    replace (size pre + 1) with (size (snoc pre c1)) by sizes.
    rewrite IH; [|done|sizes]. f_equal. sizes.
Qed.

Lemma find_quote_open qd : forall pre fuel,
  noq qd = true -> size qd <= fuel ->
  find_quote fuel (pre +:+ qd) (size pre) = Some (size (pre +:+ qd)).
Proof.
  induction qd as [|c1 qd IH]; intros pre fuel Hq Hf.
  - rewrite find_quote_done by sizes. f_equal. sizes.
  - destruct fuel as [|fuel]; [sizes|]. cbn [find_quote].
    apply noq_cons in Hq as [Hc Hq].
    rewrite at_app_head.
    destruct (Nat.ltb_spec (size pre) (size (pre +:+ String c1 qd))); [|sizes].
    destruct (Ascii.eqb_spec c1 dquote); [done|]. simpl.
    replace (pre +:+ String c1 qd) with (snoc pre c1 +:+ qd) by str_eq.
    replace (size pre + 1) with (size (snoc pre c1)) by sizes.
    by rewrite IH; [|done|sizes].
Qed.

Lemma toks_quoted_closed qd : forall r2 cur out,
  noq qd = true ->
  toks (qd +:+ String dquote r2) TQuoted cur out
  = toks r2 TAfterQuote EmptyString (out ++ [cur +:+ qd]).
Proof.
  induction qd as [|c qd IH]; intros r2 cur out Hq.
  - rewrite app_nil_l, app_nil_r. by simpl.
  - apply noq_cons in Hq as [Hc Hq]. rewrite app_cons. simpl.
    destruct (Ascii.eqb_spec c dquote); [done|].
    rewrite IH by done. do 3 f_equal. str_eq.
Qed.

Lemma toks_quoted_open qd : forall cur out,
  noq qd = true -> toks qd TQuoted cur out = (out ++ [cur +:+ qd], None).
Proof.
  induction qd as [|c qd IH]; intros cur out Hq.
  - simpl. by rewrite app_nil_r.
  - apply noq_cons in Hq as [Hc Hq]. simpl.
    destruct (Ascii.eqb_spec c dquote); [done|].
    rewrite IH by done. do 3 f_equal. str_eq.
Qed.

Lemma tokenize_loop_done fuel input i start tokens :
  size input <= i -> tokenize_loop fuel input i start tokens = Some (start, tokens).
Proof.
  intros H. destruct fuel; simpl;
    destruct (Nat.ltb_spec i (size input)); (lia || done).
Qed.

Lemma substr_between a w b x y :
  x = size a -> y = size a + size w ->
  substr (a +:+ w +:+ b) x (Z.of_nat y - Z.of_nat x) = Some w.
Proof. intros -> ->. apply substr_middle. Qed.

(** The loop of [tokenize], started at position [size pre0 + size cur]
    of the input [pre0 ++ cur ++ rest] with [start = size pre0], ends with
    the tokens [toks] computes from [rest]; the final [start] is where the
    remaining text begins, or one past the end of the input after an
    unterminated quote. *)
Ltac unfold_defs := repeat match goal with x := _ |- _ => subst x end.
Ltac same_input := unfold_defs; str_eq.
Ltac none_case H := destruct H as [-> H]; unfold_defs; sizes.

Lemma tokenize_loop_toks n : forall rest pre0 cur out fuel,
  size rest <= n -> size rest <= fuel ->
  exists start',
    tokenize_loop fuel (pre0 +:+ cur +:+ rest) (size pre0 + size cur) (size pre0) out
    = Some (start', (toks rest TNormal cur out).1) /\
    match (toks rest TNormal cur out).2 with
    | Some cur' => exists p, pre0 +:+ cur +:+ rest = p +:+ cur' /\ start' = size p
    | None => start' = S (size (pre0 +:+ cur +:+ rest)) /\ 1 <= size (pre0 +:+ cur +:+ rest)
    end.
Proof.
  induction n as [|n IH]; intros rest pre0 cur out fuel Hn Hf.
  - destruct rest as [|c r]; [|sizes].
    exists (size pre0). simpl. split; [by rewrite tokenize_loop_done by sizes|].
    exists pre0. split; [str_eq|done].
  - destruct rest as [|c r].
    { exists (size pre0). simpl. split; [by rewrite tokenize_loop_done by sizes|].
      exists pre0. split; [str_eq|done]. }
    destruct fuel as [|fuel]; [sizes|].
    assert (Hn' : size r <= n) by sizes.
    assert (Hf' : size r <= fuel) by sizes.
    set (input := pre0 +:+ cur +:+ String c r).
    assert (Hin : input = (pre0 +:+ cur) +:+ String c r) by (subst input; str_eq).
    assert (Hi : size pre0 + size cur = size (pre0 +:+ cur)) by sizes.
    cbn [tokenize_loop].
    destruct (Nat.ltb_spec (size pre0 + size cur) (size input)) as [_|Hge];
      [|subst input; sizes].
    assert (Hat : at_ input (size pre0 + size cur) = c).
    { rewrite Hin, Hi. apply at_app_head. }
    rewrite Hat. cbn [toks].
    destruct (Ascii.eqb_spec c " ") as [->|Hnsp].
    + (* a space ends the token *)
      replace (substr input (size pre0) (Z.of_nat (size pre0 + size cur) - Z.of_nat (size pre0)))
        with (Some cur) by (symmetry; apply substr_middle).
      cbn [mbind option_bind].
      destruct (IH r (snoc (pre0 +:+ cur) " ") EmptyString (out ++ [cur]) fuel)
        as (st & Hl & Hr); [done|done|].
      exists st. split.
      * rewrite <- Hl. f_equal; [subst input; str_eq|sizes|sizes].
      * destruct ((toks r TNormal EmptyString (out ++ [cur])).2) as [cur'|].
        -- destruct Hr as (p & Hp & ->). exists p. split; [|done].
           rewrite <- Hp. same_input.
        -- none_case Hr.
    + destruct (Ascii.eqb_spec c dquote) as [->|Hnq].
      * (* a quoted token *)
        set (pre1 := snoc (pre0 +:+ cur) dquote).
        assert (Hi1 : size pre0 + size cur + 1 = size pre1) by (subst pre1; sizes).
        destruct (first_quote r) as [(qd & r2 & -> & Hqd)|Hopen].
        -- assert (Hin1 : input = pre1 +:+ qd +:+ String dquote r2)
             by (subst input pre1; str_eq).
           replace (find_quote (size input) input (size pre0 + size cur + 1))
             with (Some (size pre1 + size qd)).
           2:{ rewrite Hin1, Hi1. symmetry. apply find_quote_closed; [done|sizes]. }
           cbn [mbind option_bind].
           replace (substr input (size pre0 + size cur + 1)
                      (Z.of_nat (size pre1 + size qd) - Z.of_nat (size pre0 + size cur + 1)))
             with (Some qd).
           2:{ rewrite Hin1. symmetry. by apply substr_between. }
           cbn [mbind option_bind].
           rewrite toks_quoted_closed by done. rewrite app_nil_l.
           set (pre2 := snoc (pre1 +:+ qd) dquote).
           assert (Hi2 : size pre1 + size qd + 1 = size pre2) by (subst pre2; sizes).
           destruct r2 as [|c2 r3].
           ++ (* the closing quote is the last character *)
              assert (Hsz : size input = size pre2) by (rewrite Hin1; subst pre2; sizes).
              destruct (Nat.ltb_spec (size pre1 + size qd + 1) (size input)); [lia|].
              simpl. rewrite tokenize_loop_done by lia.
              exists (size pre1 + size qd + 1). split; [done|].
              exists input. split; [str_eq|lia].
           ++ (* the character after the closing quote is not scanned *)
              assert (Hin2 : input = pre2 +:+ String c2 r3)
                by (rewrite Hin1; subst pre2; str_eq).
              destruct (Nat.ltb_spec (size pre1 + size qd + 1) (size input));
                [|rewrite Hin2 in *; sizes].
              replace (at_ input (size pre1 + size qd + 1)) with c2
                by (rewrite Hin2, Hi2; symmetry; apply at_app_head).
              cbn [toks andb].
              destruct (Ascii.eqb_spec c2 " ") as [->|Hc2].
              ** destruct (IH r3 (snoc pre2 " ") EmptyString (out ++ [qd]) fuel)
                   as (st & Hl & Hr); [sizes|sizes|].
                 exists st. split.
                 --- rewrite <- Hl. f_equal; [rewrite Hin2; str_eq|sizes|sizes].
                 --- destruct ((toks r3 TNormal EmptyString (out ++ [qd])).2) as [cur'|].
                     +++ destruct Hr as (p & Hp & ->). exists p. split; [|done].
                         rewrite <- Hp. same_input.
                     +++ none_case Hr.
              ** destruct (IH r3 pre2 (String c2 EmptyString) (out ++ [qd]) fuel)
                   as (st & Hl & Hr); [sizes|sizes|].
                 exists st. split.
                 --- rewrite <- Hl. f_equal; [rewrite Hin2; str_eq|sizes|sizes].
                 --- destruct ((toks r3 TNormal (String c2 EmptyString) (out ++ [qd])).2)
                       as [cur'|].
                     +++ destruct Hr as (p & Hp & ->). exists p. split; [|done].
                         rewrite <- Hp. same_input.
                     +++ none_case Hr.
        -- (* the quote is never closed *)
           assert (Hin1 : input = pre1 +:+ r +:+ EmptyString) by (subst input pre1; str_eq).
           assert (Hsz : size input = size pre1 + size r) by (rewrite Hin1; sizes).
           replace (find_quote (size input) input (size pre0 + size cur + 1))
             with (Some (size pre1 + size r)).
           2:{ rewrite Hin1, app_nil_r, Hi1. symmetry.
               rewrite find_quote_open; [f_equal; sizes|done|sizes]. }
           cbn [mbind option_bind].
           replace (substr input (size pre0 + size cur + 1)
                      (Z.of_nat (size pre1 + size r) - Z.of_nat (size pre0 + size cur + 1)))
             with (Some r).
           2:{ rewrite Hin1. symmetry. by apply substr_between. }
           cbn [mbind option_bind].
           destruct (Nat.ltb_spec (size pre1 + size r + 1) (size input)); [lia|].
           simpl. rewrite tokenize_loop_done by lia.
           rewrite toks_quoted_open by done. rewrite app_nil_l. simpl.
           exists (size pre1 + size r + 1). split; [done|].
           fold input. lia.
      * (* any other character *)
        destruct (IH r pre0 (snoc cur c) out fuel) as (st & Hl & Hr); [done|done|].
        exists st. split.
        -- rewrite <- Hl. f_equal; [subst input; str_eq|sizes].
        -- destruct ((toks r TNormal (snoc cur c) out).2) as [cur'|].
           ++ destruct Hr as (p & Hp & ->). exists p. split; [|done].
              rewrite <- Hp. same_input.
           ++ none_case Hr.
Qed.

Lemma tokenize_toks input : tokenize input = Some (tokens_of input).
Proof.
  unfold tokenize, tokens_of.
  destruct (tokenize_loop_toks (size input) input EmptyString EmptyString [] (size input))
    as (st & Hl & Hr); [done|done|].
  rewrite !app_nil_l in Hl, Hr. change (size EmptyString + size EmptyString) with 0 in Hl.
  change (size EmptyString) with 0 in Hl.
  rewrite Hl. cbn [mbind option_bind].
  destruct (toks input TNormal EmptyString []) as [out [cur|]]; simpl in *.
  - destruct Hr as (p & Hp & ->).
    assert (Hsz : size input - size cur = size p) by (rewrite Hp at 1; sizes).
    rewrite Hsz.
    destruct (lt_size_minus_1 (size p) input); [|done].
    rewrite Hp at 1. by rewrite substr_from_suffix.
  - destruct Hr as [-> Hr]. by rewrite lt_size_minus_1_ge by lia.
Qed.

End tokenize_refinement.

(** Neither scanner throws or runs out of iterations. *)
Lemma splitByPipe_total input : is_Some (splitByPipe input).
Proof. rewrite splitByPipe_segs. by eexists. Qed.

Lemma tokenize_total input : is_Some (tokenize input).
Proof. rewrite tokenize_toks. by eexists. Qed.

(** [splitByPipe] always returns at least the marker. *)
Lemma splitByPipe_nonempty input piped : splitByPipe input = Some piped -> piped <> [].
Proof.
  rewrite splitByPipe_segs. intros [= <-]. unfold segments_of.
  destruct (segs input false false EmptyString [] false) as [[cur out] bg].
  by destruct (_ ++ [_]) eqn:E; [apply app_eq_nil in E as [_ ?]|].
Qed.





(** ** Lines made of commands and separators *)

Section joined_lines.

Lemma plain_cons c r : plain (String c r) = true ->
  is_sep c = false /\ c <> dquote /\ plain r = true.
Proof.
  unfold plain, plain_char. simpl. intros H.
  apply andb_true_iff in H as [H1 H2]. apply andb_true_iff in H1 as [H0 H1].
  destruct (is_sep c); [done|]. destruct (Ascii.eqb_spec c dquote); [done|]. done.
Qed.

Lemma segs_plain w : forall rest cur out bg,
  plain w = true ->
  segs (w +:+ rest) false false cur out bg
  = segs rest false false (cur +:+ w) out (has_amp w || bg).
Proof.
  induction w as [|c w IH]; intros rest cur out bg Hw.
  - by rewrite app_nil_l, app_nil_r.
  - apply plain_cons in Hw as (Hs & Hq & Hw).
    rewrite app_cons. cbn [segs]. fold (is_sep c). rewrite Hs.
    destruct (Ascii.eqb_spec c dquote); [done|].
    rewrite IH by done. simpl.
    replace (snoc cur c +:+ w) with (cur +:+ String c w) by str_eq.
    f_equal. by destruct (Ascii.eqb c "&"), (has_amp w), bg.
Qed.

Lemma segs_plain_skip w : forall rest out bg,
  plain w = true -> begins_with_space rest = false ->
  segs (w +:+ rest) false (begins_with_space (w +:+ rest)) EmptyString out bg
  = segs rest false false (drop_space w) out (has_amp w || bg).
Proof.
  intros rest out bg Hw Hr. destruct w as [|c w].
  - by rewrite app_nil_l, Hr.
  - rewrite app_cons. cbn [begins_with_space drop_space].
    destruct (Ascii.eqb_spec c " ") as [->|Hc].
    + apply plain_cons in Hw as (_ & _ & Hw).
      cbn [segs]. simpl. rewrite segs_plain by done. by rewrite app_nil_l.
    + rewrite <- app_cons. rewrite segs_plain by done. by rewrite app_nil_l.
Qed.

Lemma concat_more_no_space more :
  Forall (fun x => is_sep (fst x) = true /\ plain (snd x) = true) more ->
  begins_with_space (concat_more more) = false.
Proof.
  intros H. destruct H as [|[sp cm] more [Hs _] _]; [done|].
  simpl in *. apply is_sep_inv in Hs as (_ & _ & Hs).
  by destruct (Ascii.eqb_spec sp " ").
Qed.

Lemma segs_more more : forall cur out bg,
  Forall (fun x => is_sep (fst x) = true /\ plain (snd x) = true) more ->
  segs (concat_more more) false false cur out bg
  = (List.last (texts cur more) EmptyString,
     out ++ removelast (texts cur more),
     has_amp_more more || bg).
Proof.
  induction more as [|[sp cm] more IH]; intros cur out bg Hm.
  - simpl. by rewrite List.app_nil_r.
  - inversion Hm as [|? ? [Hs Hc] Hm']; subst. simpl in Hs, Hc.
    cbn [concat_more segs]. fold (is_sep sp). rewrite Hs.
    destruct (is_sep_inv sp Hs) as (Hamp & _ & _).
    destruct (Ascii.eqb_spec sp "&"); [done|].
    rewrite segs_plain_skip; [|done|by apply concat_more_no_space].
    rewrite IH by done.
    unfold texts. cbn [map snd]. f_equal; [f_equal|].
    + cbn [removelast]. destruct (map _ more); by rewrite <- List.app_assoc.
    + cbn [has_amp_more existsb snd]. fold (has_amp_more more).
      by destruct (has_amp cm), (has_amp_more more), bg.
Qed.

Lemma has_amp_app a b : has_amp (a +:+ b) = has_amp a || has_amp b.
Proof.
  induction a as [|c a IH]; [done|].
  rewrite app_cons. simpl. rewrite IH. by destruct (Ascii.eqb c "&").
Qed.

Lemma has_amp_concat_more more :
  Forall (fun x => is_sep (fst x) = true /\ plain (snd x) = true) more ->
  has_amp (concat_more more) = has_amp_more more.
Proof.
  induction 1 as [|[sp cm] more [Hs _] _ IH]; [done|].
  simpl in *. rewrite has_amp_app, IH.
  destruct (is_sep_inv sp Hs) as (Hamp & _ & _).
  by destruct (Ascii.eqb_spec sp "&").
Qed.

(** The final state of the scan of a well-formed line. *)
Lemma segs_join first more :
  well_formed first more ->
  segs (join first more) false false EmptyString [] false
  = (List.last (texts first more) EmptyString,
     removelast (texts first more),
     has_amp (join first more)).
Proof.
  intros [Hf Hm]. unfold join.
  rewrite segs_plain by done. rewrite app_nil_l, segs_more by done.
  rewrite has_amp_app, has_amp_concat_more by done.
  simpl. f_equal. by destruct (has_amp first), (has_amp_more more).
Qed.

End joined_lines.

Section parse_line_facts.

Lemma segs_suffix input :
  exists p, input = p +:+ (segs input false false EmptyString [] false).1.1.
Proof.
  destruct (splitByPipe_loop_segs (size input) input EmptyString EmptyString false [] false
              (size input) 0) as (p & Hp & _); [done|done|done|].
  rewrite !app_nil_l in Hp. by exists p.
Qed.

(** [parse_line] read off [segs]: the segments and the background flag. *)
Lemma parse_line_segs input :
  parse_line input =
    let '(cur, out, bg) := segs input false false EmptyString [] false in
    Some (if lt_size_minus_1 (size input - size cur) input then out ++ [cur] else out, bg).
Proof.
  unfold parse_line. rewrite splitByPipe_segs. cbn [mbind option_bind].
  unfold segments_of.
  destruct (segs input false false EmptyString [] false) as [[cur out] bg].
  rewrite last_snoc, removelast_last. do 2 f_equal.
  destruct bg; by vm_compute.
Qed.

End parse_line_facts.

(** ** C1 *)

(** C1, as stated, fails on its own example: the segments of [a | b | c]
    keep the space before each separator, and the final one-character
    segment is not appended. *)
Lemma C1_counterexample :
  parse_line "a | b | c" = Some (["a "; "b "], false) /\
  parse_line "a | b | c" <> Some (["a"; "b"; "c"], false).
Proof. split; [by vm_compute|]. by vm_compute. Qed.

Lemma parse_line_join (first : string) (more : list (ascii * string)) :
  well_formed first more ->
  join first more <> EmptyString ->
  size (List.last (texts first more) EmptyString) <> 1 ->
  (Z.of_nat (size (join first more)) < 2 ^ 31)%Z ->
  parse_line (join first more)
  = Some (if size (List.last (texts first more) EmptyString) =? 0
          then removelast (texts first more) else texts first more,
          has_amp (join first more)).
Proof.
  intros Hwf Hne Hlast Hsz.
  rewrite parse_line_segs.
  destruct (segs_suffix (join first more)) as (p & Hp).
  rewrite segs_join in * by done. cbn [fst snd] in Hp.
  set (cur := List.last (texts first more) EmptyString) in *.
  assert (Hlen : size (join first more) = size p + size cur) by (rewrite Hp at 1; sizes).
  assert (Hpos : 1 <= size (join first more)).
  { destruct (join first more); [done|]. rewrite size_cons. lia. }
  destruct (Nat.eqb_spec (size cur) 0) as [H0|H0].
  - by rewrite lt_size_minus_1_ge by lia.
  - rewrite lt_size_minus_1_lt by lia.
    do 2 f_equal. subst cur. symmetry. by apply app_removelast_last.
Qed.

(** C1 (amended): for a line of commands joined by [|] or [;], every
    separator ends the current segment; the segments are the command texts
    as typed, less one space directly after a separator (a space before a
    separator stays); an empty last text is dropped and a last text of two
    or more characters is appended; the background flag tells whether [&]
    occurs. *)
Theorem splitByPipe_joined (first : string) (more : list (ascii * string)) :
  well_formed first more ->
  join first more <> EmptyString ->
  size (List.last (texts first more) EmptyString) <> 1 ->
  (Z.of_nat (size (join first more)) < 2 ^ 31)%Z ->
  parse_line (join first more)
  = Some (if size (List.last (texts first more) EmptyString) =? 0
          then removelast (texts first more) else texts first more,
          has_amp (join first more)).
Proof. apply parse_line_join. Qed.

Lemma splitByPipe_joined_witness :
  parse_line "ab | cd | ef" = Some (["ab "; "cd "; "ef"], false).
Proof.
  apply (splitByPipe_joined "ab " [("|"%char, " cd "); ("|"%char, " ef")]).
  - split; [by vm_compute|]. repeat constructor.
  - done.
  - by vm_compute.
  - by vm_compute.
Defined.

(** ** C7 *)

Lemma segs_background s : forall inq skip cur out bg,
  (segs s inq skip cur out bg).2 = unquoted_amp inq s || bg.
Proof.
  induction s as [|c s IH]; intros inq skip cur out bg; [done|].
  cbn [segs unquoted_amp]. destruct inq; [apply IH|].
  fold (is_sep c). destruct (is_sep c) eqn:Hs.
  - rewrite IH. destruct (is_sep_inv c Hs) as (Ha & Hq & _).
    destruct (Ascii.eqb_spec c "&"); [done|].
    by destruct (Ascii.eqb_spec c dquote).
  - destruct (Ascii.eqb_spec c dquote) as [->|Hq]; rewrite IH.
    + by destruct (Ascii.eqb_spec dquote "&").
    + by destruct (Ascii.eqb c "&"), (unquoted_amp false s), bg.
Qed.

Lemma parse_line_background line :
  exists segments, parse_line line = Some (segments, unquoted_amp false line).
Proof.
  rewrite parse_line_segs.
  pose proof (segs_background line false false EmptyString [] false) as Hbg.
  destruct (segs line false false EmptyString [] false) as [[cur out] bg].
  simpl in Hbg. rewrite orb_false_r in Hbg. subst bg. by eexists.
Qed.

Lemma parse_line_plain line :
  plain line = true -> 2 <= size line -> (Z.of_nat (size line) < 2 ^ 31)%Z ->
  parse_line line = Some ([line], has_amp line).
Proof.
  intros Hp H2 Hsz.
  pose proof (parse_line_join line []) as H.
  unfold join, texts in H. cbn [concat_more map List.last] in H.
  rewrite app_nil_r in H.
  destruct (Nat.eqb_spec (size line) 0); [lia|].
  apply H; [by split|by destruct line|lia|done].
Qed.

(** C7, as stated, fails on its own example: the character [&] stays in
    the text of the segment; only the marker that [splitByPipe] appends is
    removed by the caller. *)
Lemma C7_counterexample :
  parse_line "a & " = Some (["a & "], true) /\
  parse_line "a & " <> Some (["a"], true).
Proof. split; by vm_compute. Qed.

(** C7 (amended): the background flag of a line is set exactly when [&]
    occurs outside the quoted spans, and [&] is no separator and stays in
    the text: a line of two or more characters without separators and
    quotes is its own single segment, [&] included. *)
Theorem ampersand_sets_flag_and_stays (line : string) :
  (exists segments, parse_line line = Some (segments, unquoted_amp false line)) /\
  (plain line = true -> 2 <= size line -> (Z.of_nat (size line) < 2 ^ 31)%Z ->
   parse_line line = Some ([line], has_amp line)).
Proof. split; [apply parse_line_background|apply parse_line_plain]. Qed.

Lemma ampersand_sets_flag_and_stays_witness :
  parse_line "a & " = Some (["a & "], true).
Proof.
  apply (proj2 (ampersand_sets_flag_and_stays "a & ")).
  - by vm_compute.
  - vm_compute. lia.
  - by vm_compute.
Defined.

(** ** C8 *)

Lemma toks_spaces n : forall out,
  toks (spaces n) TNormal EmptyString out = (out ++ replicate n EmptyString, Some EmptyString).
Proof.
  induction n as [|n IH]; intros out; simpl.
  - by rewrite List.app_nil_r.
  - rewrite IH. by rewrite <- List.app_assoc.
Qed.

(** C8, as stated, fails: a segment that is one space gives one empty
    token, not the empty list (and so does the empty segment). *)
Lemma C8_counterexample :
  tokenize " " = Some [EmptyString] /\ tokenize " " <> Some [] /\
  tokenize EmptyString = Some [EmptyString].
Proof. repeat split; by vm_compute. Qed.

(** C8 (amended): every space ends a token, empty or not, and the empty
    text after the last space adds none: a segment of n >= 1 spaces gives
    n empty tokens. *)
Theorem tokenize_only_spaces (n : nat) :
  tokenize (spaces (S n)) = Some (replicate (S n) EmptyString).
Proof.
  rewrite tokenize_toks. unfold tokens_of. rewrite toks_spaces.
  rewrite lt_size_minus_1_ge; [done| |]; cbn [spaces]; sizes.
Qed.

(** ** C9 *)

Section final_character.

Lemma toks_noq p : forall cur out,
  noq p = true ->
  exists cur' out', forall rest,
    toks (p +:+ rest) TNormal cur out = toks rest TNormal cur' out'.
Proof.
  induction p as [|c p IH]; intros cur out Hp.
  - by exists cur, out.
  - apply noq_cons in Hp as [Hc Hp].
    destruct (Ascii.eqb_spec c " ") as [->|Hsp].
    + destruct (IH EmptyString (out ++ [cur]) Hp) as (cur' & out' & H).
      exists cur', out'. intros rest. rewrite app_cons. simpl. apply H.
    + destruct (IH (snoc cur c) out Hp) as (cur' & out' & H).
      exists cur', out'. intros rest. rewrite app_cons. cbn [toks].
      destruct (Ascii.eqb_spec c " "); [done|].
      destruct (Ascii.eqb_spec c dquote); [done|]. apply H.
Qed.

Lemma begins_with_space_app r rest :
  begins_with_space rest = false ->
  begins_with_space (r +:+ rest) = begins_with_space r.
Proof. intros H. destruct r; [by rewrite app_nil_l|done]. Qed.

Lemma segs_noq p : forall skip cur out bg,
  noq p = true ->
  exists cur' out' bg', forall rest,
    begins_with_space rest = false ->
    segs (p +:+ rest) false (skip && begins_with_space p) cur out bg
    = segs rest false false cur' out' bg'.
Proof.
  induction p as [|c p IH]; intros skip cur out bg Hp.
  - exists cur, out, bg. intros rest _. by rewrite andb_false_r.
  - apply noq_cons in Hp as [Hc Hp].
    destruct (is_sep c) eqn:Hs.
    + destruct (IH true EmptyString (out ++ [cur])
                  (if Ascii.eqb c "&" then true else bg) Hp) as (cur' & out' & bg' & H).
      exists cur', out', bg'. intros rest Hr.
      rewrite app_cons. cbn [segs]. fold (is_sep c). rewrite Hs.
      rewrite begins_with_space_app by done. by apply H.
    + destruct (IH false (if skip && begins_with_space (String c p) then cur else snoc cur c)
                  out (if Ascii.eqb c "&" then true else bg) Hp) as (cur' & out' & bg' & H).
      exists cur', out', bg'. intros rest Hr.
      rewrite app_cons. cbn [segs]. fold (is_sep c). rewrite Hs.
      destruct (Ascii.eqb_spec c dquote); [done|]. by apply H.
Qed.

Lemma tokenize_drops_char_after_space p c :
  noq p = true -> c <> " "%char -> c <> dquote ->
  tokenize (p +:+ String " " (String c EmptyString)) = tokenize (p +:+ " ").
Proof.
  intros Hp Hsp Hq. rewrite !tokenize_toks. unfold tokens_of.
  destruct (toks_noq p EmptyString [] Hp) as (cur' & out' & H).
  rewrite !H. cbn [toks].
  destruct (Ascii.eqb_spec c " "); [done|].
  destruct (Ascii.eqb_spec c dquote); [done|].
  rewrite Ascii.eqb_refl. cbv beta iota.
  rewrite !lt_size_minus_1_ge; [done| | | |]; sizes.
Qed.

Lemma tokenize_drops_char_after_quote p qd c :
  noq p = true -> noq qd = true ->
  tokenize (p +:+ q qd +:+ String c EmptyString) = tokenize (p +:+ q qd).
Proof.
  intros Hp Hqd. rewrite !tokenize_toks. unfold tokens_of, q.
  destruct (toks_noq p EmptyString [] Hp) as (cur' & out' & H).
  rewrite !H. rewrite !app_cons. cbn [toks].
  destruct (Ascii.eqb_spec dquote " "); [done|].
  destruct (Ascii.eqb_spec dquote dquote); [|done].
  rewrite app_assoc, app_cons, app_nil_l.
  rewrite !toks_quoted_closed by done. cbn [toks].
  destruct (Ascii.eqb c " "); rewrite !lt_size_minus_1_ge; (done || sizes).
Qed.

Lemma splitByPipe_drops_char_after_separator p sp c :
  noq p = true -> is_sep sp = true -> plain_char c = true -> c <> "&"%char ->
  splitByPipe (p +:+ String sp (String c EmptyString)) = splitByPipe (p +:+ String sp EmptyString).
Proof.
  intros Hp Hs Hc Ha. rewrite !splitByPipe_segs. unfold segments_of.
  destruct (segs_noq p false EmptyString [] false Hp) as (cur' & out' & bg' & H).
  cbn [andb] in H.
  destruct (is_sep_inv sp Hs) as (Hamp & _ & Hspc).
  assert (Hb : forall r, begins_with_space (String sp r) = false)
    by (intros r; simpl; by destruct (Ascii.eqb_spec sp " ")).
  rewrite !H by apply Hb. cbn [segs]. fold (is_sep sp) (is_sep c). rewrite Hs.
  unfold plain_char in Hc. apply andb_true_iff in Hc as [Hc1 Hc2].
  destruct (is_sep c); [done|]. destruct (Ascii.eqb c dquote); [done|].
  destruct (Ascii.eqb_spec c "&"); [done|].
  destruct (Ascii.eqb_spec sp "&"); [done|].
  cbn [begins_with_space].
  destruct (Ascii.eqb c " "); rewrite !lt_size_minus_1_ge; (done || sizes).
Qed.

Lemma tokenize_final_guard input start tokens :
  tokenize_loop (size input) input 0 0 [] = Some (start, tokens) ->
  start + 1 = size input ->
  tokenize input = Some tokens.
Proof.
  intros Hl Hs. unfold tokenize. rewrite Hl. cbn [mbind option_bind].
  by rewrite lt_size_minus_1_ge by lia.
Qed.

Lemma splitByPipe_final_guard input start output background :
  splitByPipe_loop (size input) input 0 0 [] false = Some (start, output, background) ->
  start + 1 = size input ->
  splitByPipe input = Some (output ++ [if background then "&" else "-"]).
Proof.
  intros Hl Hs. unfold splitByPipe. rewrite Hl. cbn [mbind option_bind].
  by rewrite lt_size_minus_1_ge by lia.
Qed.

End final_character.

(** C9: a final text of exactly one character is not appended.  For every
    input, when the loop ends with [start] on the last character the result
    is the loop's tokens (segments) alone; so a character after the last
    space, after a closing quote, or after the last separator changes
    nothing, and [echo a] gives the one token [echo]. *)
Theorem final_one_character_omitted (p : string) (c : ascii) :
  noq p = true -> c <> " "%char -> plain_char c = true -> c <> "&"%char ->
  (forall input start tokens,
     tokenize_loop (size input) input 0 0 [] = Some (start, tokens) ->
     start + 1 = size input -> tokenize input = Some tokens) /\
  (forall input start output background,
     splitByPipe_loop (size input) input 0 0 [] false = Some (start, output, background) ->
     start + 1 = size input ->
     splitByPipe input = Some (output ++ [if background then "&" else "-"])) /\
  tokenize (p +:+ String " " (String c EmptyString)) = tokenize (p +:+ " ") /\
  (forall qd, noq qd = true ->
     tokenize (p +:+ q qd +:+ String c EmptyString) = tokenize (p +:+ q qd)) /\
  (forall sp, is_sep sp = true ->
     splitByPipe (p +:+ String sp (String c EmptyString))
     = splitByPipe (p +:+ String sp EmptyString)) /\
  tokenize "echo a" = Some ["echo"] /\
  parse_line "ls|a" = Some (["ls"], false).
Proof.
  intros Hp Hsp Hc Ha.
  assert (Hq : c <> dquote).
  { unfold plain_char in Hc. apply andb_true_iff in Hc as [_ Hc].
    by destruct (Ascii.eqb_spec c dquote). }
  split; [apply tokenize_final_guard|].
  split; [apply splitByPipe_final_guard|].
  split; [by apply tokenize_drops_char_after_space|].
  split; [intros qd Hqd; by apply tokenize_drops_char_after_quote|].
  split; [intros sp Hs; by apply splitByPipe_drops_char_after_separator|].
  split; by vm_compute.
Qed.

Lemma final_one_character_omitted_witness :
  tokenize "echo a" = tokenize "echo " /\ tokenize "echo a" = Some ["echo"].
Proof.
  destruct (final_one_character_omitted "echo" "a") as (_ & _ & H & _ & _ & E & _).
  - by vm_compute.
  - by vm_compute.
  - by vm_compute.
  - by vm_compute.
  - split; [exact H|exact E].
Defined.

(** ** C5 *)

(** C5: with more than one token, the second-to-last token alone decides:
    [>>] gives OutputAppend of the last token, otherwise a first character
    [>] gives OutputTruncate, otherwise [<] gives Input; the launcher then
    gets the tokens without the last two. *)
Theorem redirect_resolution (tokens : list string) (is_background : bool) :
  1 < length tokens ->
  run_cmd_tokens tokens is_background
  = launch (resolve tokens).1 (resolve tokens).2 is_background.
Proof.
  intros Hlen. unfold run_cmd_tokens, resolve, launch.
  destruct (Nat.ltb_spec 1 (length tokens)); [|lia].
  set (t := tokens !!! (length tokens - 2)).
  assert (Hall : take (Z.to_nat (Z.of_nat (length tokens) + 1 - 1)) tokens = tokens)
    by (apply take_ge; lia).
  assert (Hcut : Z.to_nat (Z.of_nat (length tokens) + 1 - 2 - 1) = length tokens - 2) by lia.
  destruct (String.eqb_spec t ">>") as [->|Hne].
  - simpl. by rewrite Hcut.
  - destruct (Ascii.eqb (at_ t 0) ">") eqn:Hgt.
    + destruct (String.eqb_spec t "<") as [->|_]; [done|].
      simpl. by rewrite Hcut.
    + destruct (String.eqb_spec t "<") as [->|_]; simpl.
      * by rewrite Hcut.
      * by rewrite Hall.
Qed.

Lemma redirect_resolution_witness :
  resolve ["ls"; "-l"; ">"; "out.txt"] = (["ls"; "-l"], OutputTruncate "out.txt") /\
  run_cmd_tokens ["ls"; "-l"; ">"; "out.txt"] false
  = launch ["ls"; "-l"] (OutputTruncate "out.txt") false.
Proof.
  split; [by vm_compute|].
  apply (redirect_resolution ["ls"; "-l"; ">"; "out.txt"] false).
  simpl. lia.
Defined.

(** ** C6 *)

(** C6 at the line [echo hi >> fresh.txt]: the child opens the file with
    [FILEFLAGS_APPEND], which has no [O_CREAT] among its operands (nor its
    bit under the Linux and Darwin values), where [FILEFLAGS] has it; and
    the mode handed to [open] is 0666, group and other write included, not
    0644. *)
Theorem append_redirect_does_not_create :
  run_cmd "echo hi >> fresh.txt" false
  = Some [CClose STDOUT_FILENO; COpen "fresh.txt" FILEFLAGS_APPEND (Some RW_PERMS);
          CDup2_opened STDOUT_FILENO; CExecvp ["echo"; "hi"]; CPrint_error 1; CExit (-1)] /\
  (O_CREAT ∉ FILEFLAGS_APPEND) /\ (O_CREAT ∈ FILEFLAGS) /\
  Z.land (flags_word linux_fcntl FILEFLAGS_APPEND) (o_creat linux_fcntl) = 0%Z /\
  Z.land (flags_word darwin_fcntl FILEFLAGS_APPEND) (o_creat darwin_fcntl) = 0%Z /\
  RW_PERMS <> octal 6 4 4 /\
  Z.land RW_PERMS (octal 0 2 2) = octal 0 2 2.
Proof.
  split; [by vm_compute|].
  split; [by apply (bool_decide_unpack _)|].
  split; [by apply (bool_decide_unpack _)|].
  repeat split; by vm_compute.
Qed.

(** ** The descriptor table *)

Section descriptors.

Lemma lowest_from_ge fuel : forall n (t : gmap Z file), (n <= lowest_from fuel n t)%Z.
Proof.
  induction fuel as [|fuel IH]; intros n t; simpl; [lia|].
  case_decide; [lia|]. specialize (IH (n + 1)%Z t). lia.
Qed.

Lemma lowest_from_delete fuel : forall n m (t : gmap Z file), (m < n)%Z ->
  lowest_from fuel n (delete m t) = lowest_from fuel n t.
Proof.
  induction fuel as [|fuel IH]; intros n m t Hm; simpl; [done|].
  rewrite lookup_delete_ne by lia.
  case_decide; [done|]. apply IH. lia.
Qed.

Lemma lowest_from_free fuel : forall n (t : gmap Z file),
  base.size t <= fuel -> t !! lowest_from fuel n t = None.
Proof.
  induction fuel as [|fuel IH]; intros n t Hs; simpl.
  - assert (t = ∅) as -> by (apply map_size_empty_iff; lia). done.
  - case_decide as Hn; [done|].
    rewrite <- (lowest_from_delete fuel (n + 1) n t) by lia.
    assert (Hd : delete n t !! lowest_from fuel (n + 1) (delete n t) = None).
    { apply IH. destruct (t !! n) eqn:E; [|done].
      rewrite map_size_delete, E. simpl. lia. }
    rewrite lookup_delete_ne in Hd; [done|].
    pose proof (lowest_from_ge fuel (n + 1) (delete n t)). lia.
Qed.

(** The descriptor [pipe] and [dup] hand out is not in use. *)
Lemma lowest_free_free (t : gmap Z file) : t !! lowest_free t = None.
Proof. by apply lowest_from_free. Qed.

End descriptors.

(** ** The pipe loop *)

Ltac kernel_fields :=
  unfold log, with_fds; cbn [fds npipes next_pid fork_fails chdir_ok spawned trace fst snd].

Section pipe_loop_facts.

Lemma bind_run {A B} (m : M A) (f : A -> M B) k a k' :
  m k = (a, k') -> bind m f k = f a k'.
Proof. unfold bind. by intros ->. Qed.

Lemma sys_dup2_open oldfd newfd k f :
  fds k !! oldfd = Some f ->
  sys_dup2 oldfd newfd k
  = (tt, log (Dup2 oldfd newfd) (with_fds (<[newfd := f]> (fds k)) k)).
Proof. unfold sys_dup2. by intros ->. Qed.

Lemma sys_dup2_closed oldfd newfd k :
  fds k !! oldfd = None -> sys_dup2 oldfd newfd k = (tt, log (Dup2 oldfd newfd) k).
Proof. unfold sys_dup2. by intros ->. Qed.

Lemma sys_fork_ok stdout cmd bg k :
  fork_fails k = [] ->
  sys_fork stdout cmd bg k
  = (next_pid k,
     log (Fork (next_pid k))
       {| fds := fds k; npipes := npipes k; next_pid := (next_pid k + 1)%Z;
          fork_fails := []; chdir_ok := chdir_ok k;
          spawned := spawned k ++ [{| c_pid := next_pid k; c_fds := fds k; c_stdout := stdout;
                                      c_cmd := cmd; c_background := bg |}];
          trace := trace k |}).
Proof. unfold sys_fork. by intros ->. Qed.




End pipe_loop_facts.

(** ** C4 *)




(** ** C2 *)

Lemma run_pipeline_single_eq seg bg fd k :
  exists r kf,
    run_pipeline [seg] bg fd k = (Next, kf) /\
    trace kf
    = trace k ++ [Dup2 fd.1 STDIN_FILENO; Fork r]
      ++ (if (r <? 0)%Z then [Printf (error_text 0)] else [])
      ++ (if bg then [] else [Wait_NULL]) ++ [Close fd.2] /\
    npipes kf = npipes k /\
    (r <> (-1)%Z ->
     spawned kf
     = spawned k ++ [{| c_pid := r; c_fds := fds (sys_dup2 fd.1 STDIN_FILENO k).2;
                        c_stdout := None; c_cmd := seg; c_background := bg |}]).
Proof.
  unfold run_pipeline. cbn [length Nat.sub pipe_loop List.last].
  unfold bind, ret.
  destruct (sys_dup2 fd.1 STDIN_FILENO k) as [[] k1] eqn:Hd.
  assert (Ht : trace k1 = trace k ++ [Dup2 fd.1 STDIN_FILENO] /\ npipes k1 = npipes k
               /\ spawned k1 = spawned k /\ fork_fails k1 = fork_fails k
               /\ next_pid k1 = next_pid k).
  { unfold sys_dup2 in Hd. destruct (fds k !! fd.1); injection Hd as <-; by kernel_fields. }
  destruct Ht as (Ht & Hn & Hs & Hff & Hp).
  unfold sys_fork. rewrite Hff.
  destruct (fork_fails k) as [|[] rest].
  - exists (next_pid k1).
    destruct (next_pid k1 <? 0)%Z, bg; unfold emit, print_error, emit, sys_close;
      kernel_fields; (eexists; split; [reflexivity|]); kernel_fields;
      rewrite Ht, Hn, Hs, <- ?List.app_assoc; repeat split; done.
  - exists (-1)%Z.
    destruct bg; unfold emit, print_error, emit, sys_close;
      kernel_fields; (eexists; split; [reflexivity|]); kernel_fields;
      rewrite Ht, Hn, <- ?List.app_assoc; repeat split; done.
  - exists (next_pid k1).
    destruct (next_pid k1 <? 0)%Z, bg; unfold emit, print_error, emit, sys_close;
      kernel_fields; (eexists; split; [reflexivity|]); kernel_fields;
      rewrite Ht, Hn, Hs, <- ?List.app_assoc; repeat split; done.
Qed.

(** C2 at a line of one segment: the pipe loop runs no pass, so the shell
    makes no [pipe] call, and still hands [fd[0]] to [dup2] before the fork
    and [fd[1]] to [close] after it, with whatever the array held on entry;
    the child runs [run_cmd] on the segment with the background flag, as a
    last stage does. *)
Theorem single_segment_uses_unset_fd (seg : string) (is_background : bool)
    (fd : Z * Z) (k : kernel) :
  exists r,
    (run_pipeline [seg] is_background fd k).1 = Next /\
    trace (run_pipeline [seg] is_background fd k).2
    = trace k ++ [Dup2 fd.1 STDIN_FILENO; Fork r]
      ++ (if (r <? 0)%Z then [Printf (error_text 0)] else [])
      ++ (if is_background then [] else [Wait_NULL]) ++ [Close fd.2] /\
    npipes (run_pipeline [seg] is_background fd k).2 = npipes k /\
    (r <> (-1)%Z ->
     spawned (run_pipeline [seg] is_background fd k).2
     = spawned k ++ [{| c_pid := r; c_fds := fds (sys_dup2 fd.1 STDIN_FILENO k).2;
                        c_stdout := None; c_cmd := seg; c_background := is_background |}]).
Proof.
  destruct (run_pipeline_single_eq seg is_background fd k) as (r & kf & -> & H).
  by exists r.
Qed.

(** ** C10 *)

Section builtin_dispatch.

Lemma builtins_fall_through input k :
  (builtins input k).1 = None -> input = "cd" \/ (builtins input k).2 = k.
Proof.
  unfold builtins.
  destruct (String.eqb input "exit"); [done|].
  destruct (String.eqb input "clear" || String.eqb input "cls"); [done|].
  destruct (String.eqb_spec input "cd") as [->|_]; [by left|].
  destruct (starts_with "cd " input).
  { destruct (substr_from input 3) as [dir|]; [|done].
    unfold bind. by destruct (handle_cd dir k). }
  destruct (String.eqb input "pwd" || starts_with "pwd " input); [done|].
  destruct (starts_with "color" input).
  { destruct (substr_from input 6) as [color|]; [|done].
    unfold bind. by destruct (handle_color color k). }
  by right.
Qed.

Lemma iteration_ends_in_builtin ORIG input fd k o :
  (builtins input (read_line ORIG input k).2).1 = Some o ->
  iteration ORIG input fd k = (o, (builtins input (read_line ORIG input k).2).2).
Proof.
  unfold iteration, bind.
  destruct (read_line ORIG input k) as [[] k1]. cbn [snd].
  destruct (builtins input k1) as [[o'|] k2]; cbn [fst snd]; [|done].
  by intros [= ->].
Qed.

Lemma iteration_bare_cd ORIG fd k :
  iteration ORIG "cd" fd k
  = run_pipeline ["cd"] false fd (handle_cd EmptyString (read_line ORIG "cd" k).2).2.
Proof.
  unfold iteration, bind.
  destruct (read_line ORIG "cd" k) as [[] k1]. cbn [snd].
  unfold builtins. cbn [String.eqb Ascii.eqb Bool.eqb orb andb].
  unfold bind. destruct (handle_cd EmptyString k1) as [[] k2]. cbn [snd].
  unfold ret.
  by replace (parse_line "cd") with (Some (["cd"], false)) by (by vm_compute).
Qed.

Lemma starts_with_app p s : starts_with p (p +:+ s) = true.
Proof.
  unfold starts_with. induction p as [|c p IH].
  - by destruct s.
  - rewrite app_cons. cbn [String.prefix]. by destruct (Ascii.ascii_dec c c).
Qed.

Lemma builtins_cd_dir dir k : (builtins ("cd " +:+ dir) k).1 = Some Next.
Proof.
  pose proof (substr_from_suffix "cd " dir) as Hs. change (size "cd ") with 3 in Hs.
  unfold builtins. rewrite Hs, starts_with_app.
  assert (E : "cd " +:+ dir = String "c" (String "d" (String " " dir))) by reflexivity.
  rewrite E. cbn [String.eqb Ascii.eqb Bool.eqb orb andb].
  unfold bind. by destruct (handle_cd dir k).
Qed.

Lemma builtins_pwd args k : (builtins ("pwd " +:+ args) k).1 = Some Next.
Proof.
  unfold builtins. rewrite starts_with_app.
  assert (E : "pwd " +:+ args = String "p" (String "w" (String "d" (String " " args))))
    by reflexivity.
  rewrite E.
  assert (starts_with "cd " (String "p" (String "w" (String "d" (String " " args)))) = false)
    as -> by reflexivity.
  cbn [String.eqb Ascii.eqb Bool.eqb orb andb]. done.
Qed.

Lemma builtins_color name k : (builtins ("color " +:+ name) k).1 = Some Next.
Proof.
  pose proof (substr_from_suffix "color " name) as Hs. change (size "color ") with 6 in Hs.
  pose proof (starts_with_app "color" (" " +:+ name)) as Hp.
  assert (A : "color" +:+ " " +:+ name = "color " +:+ name) by reflexivity.
  rewrite A in Hp.
  unfold builtins. rewrite Hs, Hp.
  assert (E : "color " +:+ name
              = String "c" (String "o" (String "l" (String "o" (String "r" (String " " name))))))
    by reflexivity.
  rewrite E.
  assert (starts_with "cd "
            (String "c" (String "o" (String "l" (String "o" (String "r" (String " " name))))))
          = false) as -> by reflexivity.
  assert (starts_with "pwd "
            (String "c" (String "o" (String "l" (String "o" (String "r" (String " " name))))))
          = false) as -> by reflexivity.
  cbn [String.eqb Ascii.eqb Bool.eqb orb andb].
  unfold bind. by destruct (handle_color name k).
Qed.

Lemma read_line_trace ORIG input k :
  trace (read_line ORIG input k).2
  = trace k ++ [Waitid P_PID 0 [WNOHANG]; Dup2 ORIG STDIN_FILENO;
                Printf "shell >> "; Getline input].
Proof.
  unfold read_line, bind, emit, sys_dup2. kernel_fields.
  destruct (fds k !! ORIG); kernel_fields; by rewrite <- !List.app_assoc.
Qed.

Lemma read_line_state ORIG input k f :
  fds k !! ORIG = Some f ->
  read_line ORIG input k
  = (tt, {| fds := <[STDIN_FILENO := f]> (fds k); npipes := npipes k; next_pid := next_pid k;
            fork_fails := fork_fails k; chdir_ok := chdir_ok k; spawned := spawned k;
            trace := trace k ++ [Waitid P_PID 0 [WNOHANG]; Dup2 ORIG STDIN_FILENO;
                                 Printf "shell >> "; Getline input] |}).
Proof.
  intros H. unfold read_line, bind, emit. kernel_fields.
  rewrite (sys_dup2_open _ _ _ f) by done. kernel_fields.
  by rewrite <- !List.app_assoc.
Qed.

End builtin_dispatch.

(** C10 at the line [cd], with the saved descriptor open and [fork]
    succeeding.  The shell changes to the home directory and goes on into
    the pipeline code on the same line; a child is forked that calls
    [execvp] on the program [cd], and the shell waits for it.  But the line
    has one segment, so the pipe loop runs no pass and no [pipe] call is
    made: what [dup2] is handed is the content of [fd[0]] on entry, which
    nothing has set.  Standard input, in the shell and in the child, becomes
    what that number refers to when it happens to be an open descriptor, and
    stays what line 69 made it otherwise; no pipe exists that was not there
    before.  A line other than [cd] reaches the pipeline code only when no
    built-in ran, and the built-in lines end the iteration where they are
    handled ([clear], [cls], [cd dir], [pwd], [color name] with [continue],
    [exit] with [return]). *)
Theorem bare_cd_falls_through (ORIG_STDIN : Z) (fd : Z * Z) (k : kernel) (f : file) :
  fds k !! ORIG_STDIN = Some f -> forks_succeed k ->
  let t1 := <[STDIN_FILENO := f]> (fds k) in
  let t2 := match t1 !! fd.1 with Some g => <[STDIN_FILENO := g]> t1 | None => t1 end in
  iteration ORIG_STDIN "cd" fd k
  = run_pipeline ["cd"] false fd (handle_cd EmptyString (read_line ORIG_STDIN "cd" k).2).2 /\
  (exists c,
     trace (iteration ORIG_STDIN "cd" fd k).2
     = trace k ++ [Waitid P_PID 0 [WNOHANG]; Dup2 ORIG_STDIN STDIN_FILENO;
                   Printf "shell >> "; Getline "cd";
                   Chdir Home (if chdir_ok k Home then 0 else -1)%Z;
                   Dup2 fd.1 STDIN_FILENO; Fork (c_pid c); Wait_NULL; Close fd.2] /\
     spawned (iteration ORIG_STDIN "cd" fd k).2 = spawned k ++ [c] /\
     (0 < c_pid c)%Z /\ c_cmd c = "cd" /\ c_background c = false /\ c_stdout c = None /\
     c_fds c = t2 /\
     child_program c = Some [CExecvp ["cd"]; CPrint_error 1; CExit (-1)]) /\
  npipes (iteration ORIG_STDIN "cd" fd k).2 = npipes k /\
  fds (iteration ORIG_STDIN "cd" fd k).2 = delete fd.2 t2 /\
  (forall input k', (builtins input k').1 = None -> input = "cd" \/ (builtins input k').2 = k') /\
  (forall input k' o,
     (builtins input (read_line ORIG_STDIN input k').2).1 = Some o ->
     iteration ORIG_STDIN input fd k'
     = (o, (builtins input (read_line ORIG_STDIN input k').2).2)) /\
  (forall k' dir, (builtins ("cd " +:+ dir) k').1 = Some Next) /\
  (forall k', (builtins "clear" k').1 = Some Next /\ (builtins "cls" k').1 = Some Next /\
              (builtins "pwd" k').1 = Some Next /\ (builtins "exit" k').1 = Some (Exited 0)) /\
  (forall k' args, (builtins ("pwd " +:+ args) k').1 = Some Next) /\
  (forall k' name, (builtins ("color " +:+ name) k').1 = Some Next).
Proof.
  intros Hf [Hff Hpid] t1 t2.
  split; [apply iteration_bare_cd|].
  set (c := {| c_pid := next_pid k; c_fds := t2; c_stdout := None;
               c_cmd := "cd"; c_background := false |}).
  assert (E : iteration ORIG_STDIN "cd" fd k
              = (Next,
                 {| fds := delete fd.2 t2; npipes := npipes k;
                    next_pid := (next_pid k + 1)%Z; fork_fails := [];
                    chdir_ok := chdir_ok k; spawned := spawned k ++ [c];
                    trace := trace k ++ [Waitid P_PID 0 [WNOHANG]; Dup2 ORIG_STDIN STDIN_FILENO;
                                         Printf "shell >> "; Getline "cd";
                                         Chdir Home (if chdir_ok k Home then 0 else -1)%Z;
                                         Dup2 fd.1 STDIN_FILENO; Fork (next_pid k); Wait_NULL;
                                         Close fd.2] |})).
  { rewrite iteration_bare_cd. rewrite (read_line_state _ _ _ f) by done. cbn [snd].
    unfold handle_cd. cbn [String.eqb].
    unfold run_pipeline. cbn [length Nat.sub pipe_loop List.last].
    unfold bind, ret, sys_chdir, sys_dup2, sys_fork, print_error, emit, sys_close.
    kernel_fields. fold t1. subst c t2.
    destruct (t1 !! fd.1) as [g|]; kernel_fields; rewrite Hff;
      (destruct (Z.ltb_spec (next_pid k) 0) as [|_]; [lia|]);
      cbn [negb]; kernel_fields; by rewrite <- !List.app_assoc. }
  rewrite E. cbn [snd fds npipes spawned trace].
  split; [exists c; by repeat split|].
  split; [done|]. split; [done|].
  split; [apply builtins_fall_through|].
  split; [intros input k' o; apply iteration_ends_in_builtin|].
  split; [intros k' dir; apply builtins_cd_dir|].
  split; [intros k'; by repeat split|].
  split; [intros k' args; apply builtins_pwd|].
  intros k' name; apply builtins_color.
Qed.

Lemma bare_cd_falls_through_witness :
  exists c,
    trace (iteration 3 "cd" (77, 88)%Z (main [] (boot 100)).2).2
    = [Signal_SIGINT; Dup 0 3; Waitid P_PID 0 [WNOHANG]; Dup2 3 0; Printf "shell >> ";
       Getline "cd"; Chdir Home 0; Dup2 77 0; Fork (c_pid c); Wait_NULL; Close 88] /\
    spawned (iteration 3 "cd" (77, 88)%Z (main [] (boot 100)).2).2 = [c] /\
    c_fds c !! STDIN_FILENO = Some Terminal /\
    child_program c = Some [CExecvp ["cd"]; CPrint_error 1; CExit (-1)] /\
    npipes (iteration 3 "cd" (77, 88)%Z (main [] (boot 100)).2).2 = 0 /\
    fds (iteration 3 "cd" (77, 88)%Z (main [] (boot 100)).2).2 !! STDIN_FILENO = Some Terminal.
Proof.
  destruct (bare_cd_falls_through 3 (77, 88)%Z (main [] (boot 100)).2 Terminal)
    as (_ & (c & Ht & Hs & _ & _ & _ & _ & Hfd & Hprog) & Hn & Hfds & _).
  - by vm_compute.
  - split; by vm_compute.
  - exists c. split; [exact Ht|]. split; [exact Hs|].
    split; [rewrite Hfd; by vm_compute|]. split; [exact Hprog|].
    split; [exact Hn|]. rewrite Hfds. by vm_compute.
Defined.

(** ** C3 *)

Section call_order.

Lemma extends_ret {A} (a : A) : extends (ret a).
Proof. intros k. exists []. by rewrite List.app_nil_r. Qed.

Lemma extends_bind {A B} (m : M A) (f : A -> M B) :
  extends m -> (forall a, extends (f a)) -> extends (bind m f).
Proof.
  intros Hm Hf k. unfold bind.
  destruct (Hm k) as (t1 & H1). destruct (m k) as [a k1]. cbn [snd] in H1.
  destruct (Hf a k1) as (t2 & H2).
  exists (t1 ++ t2). by rewrite H2, H1, List.app_assoc.
Qed.

Lemma extends_emit c : extends (emit c).
Proof. intros k. by exists [c]. Qed.

Lemma extends_sys_dup2 oldfd newfd : extends (sys_dup2 oldfd newfd).
Proof. intros k. exists [Dup2 oldfd newfd]. unfold sys_dup2. by destruct (fds k !! oldfd). Qed.

Lemma extends_sys_close fd : extends (sys_close fd).
Proof. intros k. by exists [Close fd]. Qed.

Lemma extends_sys_pipe : extends sys_pipe.
Proof. intros k. by eexists [_]. Qed.

Lemma extends_sys_fork stdout cmd bg : extends (sys_fork stdout cmd bg).
Proof.
  intros k. unfold sys_fork.
  destruct (fork_fails k) as [|[] rest]; by eexists [_].
Qed.

Lemma extends_sys_chdir target : extends (sys_chdir target).
Proof. intros k. by eexists [_]. Qed.

Lemma extends_print_error n : extends (print_error n).
Proof. apply extends_emit. Qed.

Lemma extends_pipe_loop iters : forall i piped bg fd, extends (pipe_loop iters i piped bg fd).
Proof.
  induction iters as [|iters IH]; intros i piped bg fd; cbn [pipe_loop].
  - apply extends_ret.
  - apply extends_bind; [apply extends_sys_pipe|]. intros fd'.
    apply extends_bind; [apply extends_sys_fork|]. intros pid.
    destruct (pid <? 0)%Z.
    + apply extends_bind; [apply extends_print_error|]. intros _. apply extends_ret.
    + apply extends_bind; [apply extends_sys_dup2|]. intros _.
      apply extends_bind; [apply extends_sys_close|]. intros _. apply IH.
Qed.

Lemma extends_run_pipeline piped bg fd : extends (run_pipeline piped bg fd).
Proof.
  unfold run_pipeline. destruct piped as [|s0 piped0]; [apply extends_ret|].
  apply extends_bind; [apply extends_pipe_loop|]. intros fd'.
  apply extends_bind; [apply extends_sys_dup2|]. intros _.
  apply extends_bind; [apply extends_sys_fork|]. intros pid.
  apply extends_bind.
  { destruct (pid <? 0)%Z; [apply extends_print_error|apply extends_ret]. }
  intros _. apply extends_bind.
  { destruct (negb bg); [apply extends_emit|apply extends_ret]. }
  intros _. apply extends_bind; [apply extends_sys_close|]. intros _. apply extends_ret.
Qed.

Lemma extends_handle_cd dir : extends (handle_cd dir).
Proof.
  unfold handle_cd. destruct (String.eqb dir EmptyString).
  - apply extends_bind; [apply extends_sys_chdir|]. intros _. apply extends_ret.
  - apply extends_bind; [apply extends_sys_chdir|]. intros r.
    destruct (r =? -1)%Z; [apply extends_print_error|apply extends_ret].
Qed.

Lemma extends_builtins input : extends (builtins input).
Proof.
  unfold builtins.
  destruct (String.eqb input "exit"); [apply extends_ret|].
  destruct (String.eqb input "clear" || String.eqb input "cls").
  { apply extends_bind; [apply extends_emit|]. intros _. apply extends_ret. }
  destruct (String.eqb input "cd").
  { apply extends_bind; [apply extends_handle_cd|]. intros _. apply extends_ret. }
  destruct (starts_with "cd " input).
  { destruct (substr_from input 3); [|apply extends_ret].
    apply extends_bind; [apply extends_handle_cd|]. intros _. apply extends_ret. }
  destruct (String.eqb input "pwd" || starts_with "pwd " input).
  { apply extends_bind; [apply extends_emit|]. intros _. apply extends_ret. }
  destruct (starts_with "color" input); [|apply extends_ret].
  destruct (substr_from input 6) as [color|]; [|apply extends_ret].
  apply extends_bind; [|intros _; apply extends_ret].
  unfold handle_color. destruct (COLORS !! color); apply extends_emit.
Qed.

(** Every pass through the loop body opens with the same four calls. *)
Lemma iteration_opens ORIG input fd k :
  exists t,
    trace (iteration ORIG input fd k).2
    = trace k ++ [Waitid P_PID 0 [WNOHANG]; Dup2 ORIG STDIN_FILENO;
                  Printf "shell >> "; Getline input] ++ t.
Proof.
  unfold iteration. unfold bind at 1.
  pose proof (read_line_trace ORIG input k) as Hr.
  destruct (read_line ORIG input k) as [[] k1]. cbn [snd] in Hr.
  assert (He : extends (o <- builtins input;;
                        match o with
                        | Some o0 => ret o0
                        | None =>
                            match parse_line input with
                            | Some (piped, is_background) => run_pipeline piped is_background fd
                            | None => ret Uncaught
                            end
                        end)).
  { apply extends_bind; [apply extends_builtins|]. intros [o|]; [apply extends_ret|].
    destruct (parse_line input) as [[piped bg]|]; [apply extends_run_pipeline|apply extends_ret]. }
  destruct (He k1) as (t & Ht). exists t. by rewrite Ht, Hr, <- List.app_assoc.
Qed.

(** Without [WEXITED] among the options [waitid] collects no child. *)
Lemma waitid_WNOHANG_alone idtype id children :
  waitid idtype id [WNOHANG] children = (None, children).
Proof. reflexivity. Qed.

(** No child has the process id 0. *)
Lemma waitid_pid_0 options children :
  Forall (fun p => (0 < p_pid p)%Z) children ->
  waitid P_PID 0 options children = (None, children).
Proof.
  intros H. unfold waitid. destruct (bool_decide (WEXITED ∈ options)); [|done].
  induction H as [|p rest Hp _ IH]; [done|].
  cbn [collect waitid_selects].
  destruct (Z.eqb_spec (p_pid p) 0); [lia|]. cbn [andb]. by rewrite IH.
Qed.

End call_order.

(** C3 in the code: every pass through the loop body opens, before the
    prompt, with [waitid(P_PID, 0, &status, WNOHANG)]; that call names the
    process id 0, which no child has, and asks for no state change (no
    [WEXITED]), so it collects no child from any process table; a line run
    in the background, [sleep 1 &] followed by [pwd], makes no other wait
    call. *)
Theorem read_loop_wait_collects_nothing (ORIG_STDIN : Z) (input : string) (fd : Z * Z)
    (k : kernel) (children : list proc) :
  (exists t,
     trace (iteration ORIG_STDIN input fd k).2
     = trace k ++ [Waitid P_PID 0 [WNOHANG]; Dup2 ORIG_STDIN STDIN_FILENO;
                   Printf "shell >> "; Getline input] ++ t) /\
  waitid P_PID 0 [WNOHANG] children = (None, children) /\
  (forall options, Forall (fun p => (0 < p_pid p)%Z) children ->
     waitid P_PID 0 options children = (None, children)) /\
  trace (main [("sleep 1 &", (-1, -1)%Z); ("pwd", (-1, -1)%Z)] (boot 100)).2
  = [Signal_SIGINT; Dup 0 3;
     Waitid P_PID 0 [WNOHANG]; Dup2 3 0; Printf "shell >> "; Getline "sleep 1 &";
     Dup2 (-1) 0; Fork 100; Close (-1);
     Waitid P_PID 0 [WNOHANG]; Dup2 3 0; Printf "shell >> "; Getline "pwd"; Print_cwd].
Proof.
  split; [apply iteration_opens|].
  split; [apply waitid_WNOHANG_alone|].
  split; [intros options; apply waitid_pid_0|].
  by vm_compute.
Qed.

(** ** The examples of the specification that the code meets *)

Example tokenize_quoted_span :
  tokenize ("echo " +:+ q "hello world" +:+ " foo") = Some ["echo"; "hello world"; "foo"].
Proof. by vm_compute. Qed.

Example segment_quoted_pipe :
  parse_line ("echo " +:+ q "a|b" +:+ " | cat")
  = Some (["echo " +:+ q "a|b" +:+ " "; "cat"], false).
Proof. by vm_compute. Qed.

Example redirect_append_tokens :
  resolve ["echo"; "hi"; ">>"; "log"] = (["echo"; "hi"], OutputAppend "log").
Proof. by vm_compute. Qed.

Example single_segment_ls :
  trace (main [("ls", (77, 88)%Z)] (boot 100)).2
  = [Signal_SIGINT; Dup 0 3; Waitid P_PID 0 [WNOHANG]; Dup2 3 0; Printf "shell >> ";
     Getline "ls"; Dup2 77 0; Fork 100; Wait_NULL; Close 88].
Proof. by vm_compute. Qed.

Example one_character_line_is_undefined :
  (main [("a", (77, 88)%Z)] (boot 100)).1 = Undefined.
Proof. by vm_compute. Qed.

Example color_without_name_throws :
  (main [("color", (77, 88)%Z)] (boot 100)).1 = Uncaught.
Proof. by vm_compute. Qed.

(** * Further properties of the code *)

(** ** Arguments and tokens *)

Section arguments.

Lemma word_cons c w : word (String c w) = true ->
  c <> " "%char /\ c <> dquote /\ word w = true.
Proof.
  unfold word, word_char. simpl. intros H.
  apply andb_true_iff in H as [H1 H2]. apply andb_true_iff in H1 as [H0 H1].
  destruct (Ascii.eqb_spec c " "); [done|]. by destruct (Ascii.eqb_spec c dquote).
Qed.

Lemma toks_word w : forall rest cur out,
  word w = true ->
  toks (w +:+ rest) TNormal cur out = toks rest TNormal (cur +:+ w) out.
Proof.
  induction w as [|c w IH]; intros rest cur out Hw.
  - by rewrite app_nil_l, app_nil_r.
  - apply word_cons in Hw as (Hs & Hq & Hw).
    rewrite app_cons. cbn [toks].
    destruct (Ascii.eqb_spec c " "); [done|].
    destruct (Ascii.eqb_spec c dquote); [done|].
    rewrite IH by done. f_equal. str_eq.
Qed.

Lemma toks_quoted_arg s rest cur out :
  noq s = true ->
  toks (q s +:+ rest) TNormal cur out = toks rest TAfterQuote EmptyString (out ++ [s]).
Proof.
  intros Hs. unfold q. rewrite app_cons, app_assoc, app_cons, app_nil_l. cbn [toks].
  destruct (Ascii.eqb_spec dquote " "); [done|].
  destruct (Ascii.eqb_spec dquote dquote); [|done].
  rewrite toks_quoted_closed by done. by rewrite app_nil_l.
Qed.

Lemma toks_join_args args : forall rest out,
  Forall (fun a => arg_ok a = true) args ->
  toks (join_args args rest) TNormal EmptyString out
  = toks rest TNormal EmptyString (out ++ map value args).
Proof.
  induction args as [|a args IH]; intros rest out Hok.
  - simpl. by rewrite List.app_nil_r.
  - inversion Hok as [|? ? Ha Hargs]; subst. cbn [join_args map].
    destruct a as [w|s]; cbn [show value arg_ok] in *.
    + rewrite toks_word by done. rewrite app_nil_l. cbn [toks].
      rewrite Ascii.eqb_refl. rewrite IH by done. by rewrite <- List.app_assoc.
    + rewrite toks_quoted_arg by done. cbn [toks]. rewrite Ascii.eqb_refl.
      rewrite IH by done. by rewrite <- List.app_assoc.
Qed.

Lemma join_args_app args rest : join_args args rest = join_args args EmptyString +:+ rest.
Proof.
  induction args as [|a args IH]; [done|].
  cbn [join_args]. rewrite IH. str_eq.
Qed.

Lemma size_pos s : s <> EmptyString -> 1 <= size s.
Proof. destruct s; [done|]. rewrite size_cons. lia. Qed.

(** The tokens of a command text built from arguments. *)
Lemma tokens_of_join_args args last :
  Forall (fun a => arg_ok a = true) args -> arg_ok last = true ->
  join_args args (show last) <> EmptyString ->
  (Z.of_nat (size (join_args args (show last))) < 2 ^ 31)%Z ->
  tokens_of (join_args args (show last))
  = map value args ++ (if kept_at_end last then [value last] else []).
Proof.
  intros Hargs Hlast Hne Hsz. unfold tokens_of.
  pose proof (size_pos _ Hne) as Hpos.
  rewrite toks_join_args by done. rewrite List.app_nil_l.
  destruct last as [w|s]; cbn [show value arg_ok kept_at_end] in *.
  - rewrite <- (app_nil_r w) at 1. rewrite toks_word by done. rewrite app_nil_l. cbn [toks].
    rewrite join_args_app in *. rewrite size_app in *.
    destruct (Nat.leb_spec 2 (size w)).
    + by rewrite lt_size_minus_1_lt by (rewrite ?size_app; lia).
    + rewrite lt_size_minus_1_ge by (rewrite ?size_app; lia). by rewrite List.app_nil_r.
  - rewrite <- (app_nil_r (q s)) at 1. rewrite toks_quoted_arg by done. cbn [toks].
    by rewrite lt_size_minus_1_ge by (change (size EmptyString) with 0; lia).
Qed.

End arguments.

(** X1: [splitByPipe] returns for every input, an unterminated quote and
    the empty line included, and what it returns ends with the marker, [&]
    or [-]: the [back()] and [pop_back()] of [main] always find it. *)
Theorem splitByPipe_ends_with_marker (input : string) :
  exists segments marker,
    splitByPipe input = Some (segments ++ [marker]) /\
    (marker = "&" \/ marker = "-") /\
    parse_line input = Some (segments, bool_decide (marker = "&")).
Proof.
  unfold parse_line. rewrite splitByPipe_segs. unfold segments_of.
  destruct (segs input false false EmptyString [] false) as [[cur out] bg].
  eexists _, _. split; [reflexivity|]. split.
  - destruct bg; by eauto.
  - cbn [mbind option_bind]. rewrite last_snoc, removelast_last.
    do 2 f_equal. destruct bg; by vm_compute.
Qed.

Section argument_vector.

Lemma take_length_take {A} (n : nat) (l : list A) : take n l = take (length (take n l)) l.
Proof.
  rewrite length_take. destruct (Nat.le_gt_cases n (length l)).
  - by rewrite Nat.min_l.
  - rewrite Nat.min_r by lia. by rewrite !take_ge by lia.
Qed.

Lemma take_nil_iff {A} (n : nat) (l : list A) : take n l = [] <-> n = 0 \/ l = [].
Proof.
  split.
  - destruct n, l; simpl; try done; by eauto.
  - intros [-> | ->]; [done|by destruct n].
Qed.

End argument_vector.

(** X2: [run_cmd] gets through [tokenize] on every command text (no
    [out_of_range], no endless scan) and reaches [execvp] having made only
    [setpgid], [close], [open] and [dup2] calls.  The argument vector is a
    leading part of the tokens; it is empty, so that [execvp] is handed the
    null pointer that ends the vector as the name of the program, exactly
    when the text gave no token at all or gave two of which the first is a
    redirect operator.  So a text of one character that is no space and no
    quote, which gives no token, makes the child call [execvp] on an empty
    vector, where a word of two or more characters is its own one argument.
    Nothing is said of what follows [execvp]. *)
Theorem run_cmd_reaches_execvp (cmd : string) (is_background : bool) :
  (exists tokens before argv after,
     tokenize cmd = Some tokens /\
     run_cmd cmd is_background = Some (before ++ CExecvp argv :: after) /\
     Forall (fun c => match c with
                      | CExecvp _ | CPrint_error _ | CExit _ => False
                      | _ => True
                      end) before /\
     argv = take (length argv) tokens /\
     (argv = [] <->
        tokens = [] \/
        (length tokens = 2 /\
         (Ascii.eqb (at_ (tokens !!! 0) 0) ">" = true \/ tokens !!! 0 = "<")))) /\
  (forall c, c <> " "%char -> c <> dquote ->
     tokenize (String c EmptyString) = Some [] /\
     exists after,
       run_cmd (String c EmptyString) is_background
       = Some ((if is_background then [CSetpgid 0 0] else []) ++ CExecvp [] :: after)) /\
  (forall w, word w = true -> 2 <= size w -> (Z.of_nat (size w) < 2 ^ 31)%Z ->
     tokenize w = Some [w] /\
     exists after,
       run_cmd w is_background
       = Some ((if is_background then [CSetpgid 0 0] else []) ++ CExecvp [w] :: after)).
Proof.
  split; [|split].
  - unfold run_cmd. rewrite tokenize_toks. cbn [mbind option_bind].
    set (tokens := tokens_of cmd). unfold run_cmd_tokens.
    destruct (Nat.ltb_spec 1 (length tokens)) as [Hlen|Hlen].
    + set (t := tokens !!! (length tokens - 2)).
      assert (Hne : tokens <> []) by (intros E; rewrite E in Hlen; simpl in Hlen; lia).
      assert (Ht0 : length tokens = 2 -> tokens !!! 0 = t)
        by (intros E; subst t; by rewrite E).
      destruct (String.eqb_spec t "<") as [Et|Et].
      * (* input redirect *)
        assert (Hgt : Ascii.eqb (at_ t 0) ">" = false) by (by rewrite Et).
        rewrite Hgt.
        eexists tokens, _, (take (Z.to_nat (Z.of_nat (length tokens) + 1 - 2 - 1)) tokens), _.
        split; [done|]. split; [by rewrite !List.app_assoc|].
        split; [destruct is_background; cbn [app]; by repeat constructor|].
        split; [apply take_length_take|].
        rewrite take_nil_iff. split.
        -- intros [E|E]; [|done]. right. split; [lia|]. right. rewrite Ht0 by lia. done.
        -- intros [E|[E _]]; [done|]. left. lia.
      * destruct (Ascii.eqb (at_ t 0) ">") eqn:Hgt.
        -- (* output redirect *)
           eexists tokens, _, (take (Z.to_nat (Z.of_nat (length tokens) + 1 - 2 - 1)) tokens), _.
           split; [done|]. split; [by rewrite !List.app_assoc|].
           split; [destruct is_background; cbn [app]; by repeat constructor|].
           split; [apply take_length_take|].
           rewrite take_nil_iff. split.
           ++ intros [E|E]; [|done]. right. split; [lia|]. left. rewrite Ht0 by lia. done.
           ++ intros [E|[E _]]; [done|]. left. lia.
        -- (* no redirect *)
           eexists tokens, _, (take (Z.to_nat (Z.of_nat (length tokens) + 1 - 1)) tokens), _.
           split; [done|]. split; [by rewrite !List.app_assoc|].
           split; [destruct is_background; cbn [app]; by repeat constructor|].
           split; [apply take_length_take|].
           rewrite take_nil_iff. split.
           ++ intros [E|E]; [lia|done].
           ++ intros [E|[E [H|H]]]; [done| |]; rewrite Ht0 in H by done; congruence.
    + eexists tokens, _, (take (Z.to_nat (Z.of_nat (length tokens) + 1 - 1)) tokens), _.
      split; [done|]. split; [by rewrite !List.app_assoc|].
      split; [destruct is_background; cbn [app]; by repeat constructor|].
      split; [apply take_length_take|].
      rewrite take_nil_iff. split.
      * intros [E|E]; [|by left]. left. destruct tokens; [done|simpl in E; lia].
      * intros [E|[E _]]; [by right|lia].
  - intros c Hsp Hq.
    assert (Ht : tokens_of (String c EmptyString) = []).
    { unfold tokens_of. cbn [toks].
      destruct (Ascii.eqb_spec c " "); [done|]. destruct (Ascii.eqb_spec c dquote); [done|].
      by rewrite lt_size_minus_1_ge by (unfold snoc; sizes). }
    unfold run_cmd. rewrite tokenize_toks, Ht. split; [done|].
    eexists. cbn [mbind option_bind]. unfold run_cmd_tokens. simpl. reflexivity.
  - intros w Hw H2 Hsz.
    assert (Ht : tokens_of w = [w]).
    { pose proof (tokens_of_join_args [] (Bare w)) as H.
      cbn [join_args show value arg_ok kept_at_end map app] in H.
      rewrite H; [|done|done| |done].
      - by destruct (Nat.leb_spec 2 (size w)); [|lia].
      - intros ->. change (size EmptyString) with 0 in H2. lia. }
    unfold run_cmd. rewrite tokenize_toks, Ht. split; [done|].
    eexists. cbn [mbind option_bind]. unfold run_cmd_tokens. simpl. reflexivity.
Qed.

Lemma run_cmd_reaches_execvp_witness :
  tokenize "w" = Some [] /\ tokenize "ls" = Some ["ls"].
Proof.
  destruct (run_cmd_reaches_execvp "w" false) as (_ & H1 & H2).
  split.
  - by apply (H1 "w"%char).
  - apply (H2 "ls"); [done|simpl; lia|by vm_compute].
Defined.

(** X3: a command text built from arguments separated by single spaces,
    bare words or quoted texts, gives back the arguments: one token each,
    quoted ones without their quotes and with their spaces; the last one is
    left out when it is a bare word of fewer than two characters. *)
Theorem tokenize_arguments (args : list arg) (last : arg) :
  Forall (fun a => arg_ok a = true) args -> arg_ok last = true ->
  join_args args (show last) <> EmptyString ->
  (Z.of_nat (size (join_args args (show last))) < 2 ^ 31)%Z ->
  tokenize (join_args args (show last))
  = Some (map value args ++ (if kept_at_end last then [value last] else [])).
Proof.
  intros Hargs Hlast Hne Hsz.
  rewrite tokenize_toks. f_equal. by apply tokens_of_join_args.
Qed.

Lemma tokenize_arguments_witness :
  tokenize ("grep -n " +:+ q "two words" +:+ " notes.txt")
  = Some ["grep"; "-n"; "two words"; "notes.txt"].
Proof.
  apply (tokenize_arguments [Bare "grep"; Bare "-n"; Quoted "two words"] (Bare "notes.txt")).
  - repeat constructor.
  - by vm_compute.
  - done.
  - by vm_compute.
Defined.

(** X4: text typed directly before an opening quote is discarded, and a
    quote that is never closed takes the rest of the text: with or without
    the closing quote, a word followed at once by a quote and the text [s]
    gives, at the end of a command, the one token [s]. *)
Theorem tokenize_quote_after_text (args : list arg) (w s : string) :
  Forall (fun a => arg_ok a = true) args -> word w = true -> noq s = true ->
  tokenize (join_args args (w +:+ q s)) = Some (map value args ++ [s]) /\
  tokenize (join_args args (w +:+ String dquote s)) = Some (map value args ++ [s]).
Proof.
  intros Hargs Hw Hs. rewrite !tokenize_toks. unfold tokens_of.
  rewrite !toks_join_args by done. rewrite !toks_word by done.
  rewrite List.app_nil_l, app_nil_l. split.
  - rewrite <- (app_nil_r (q s)). rewrite toks_quoted_arg by done. cbn [toks].
    rewrite lt_size_minus_1_ge; [done| |change (size EmptyString) with 0; lia].
    rewrite join_args_app. unfold q. sizes.
  - cbn [toks]. destruct (Ascii.eqb_spec dquote " "); [done|].
    destruct (Ascii.eqb_spec dquote dquote); [|done].
    by rewrite toks_quoted_open, app_nil_l by done.
Qed.

Lemma tokenize_quote_after_text_witness :
  tokenize ("git commit -m" +:+ q "first try")
  = Some ["git"; "commit"; "first try"] /\
  tokenize ("git commit -m" +:+ String dquote "first try")
  = Some ["git"; "commit"; "first try"].
Proof.
  apply (tokenize_quote_after_text [Bare "git"; Bare "commit"] "-m" "first try");
    [repeat constructor|by vm_compute|by vm_compute].
Defined.

(** X5: a separator or an [&] between double quotes does not count: a
    line with one quoted span and no separator outside it is a single
    segment, the quotes included, and only an [&] outside the span sets the
    background flag; when the quote is never closed the rest of the line
    belongs to the span. *)
Theorem quoted_span_is_not_split (a s b : string) :
  plain a = true -> noq s = true -> plain b = true ->
  (Z.of_nat (size (a +:+ q s +:+ b)) < 2 ^ 31)%Z ->
  parse_line (a +:+ q s +:+ b) = Some ([a +:+ q s +:+ b], has_amp a || has_amp b) /\
  (1 <= size (a +:+ s) ->
   parse_line (a +:+ String dquote s) = Some ([a +:+ String dquote s], has_amp a)).
Proof.
  intros Ha Hs Hb Hsz. split.
  - rewrite parse_line_segs. rewrite segs_plain by done. rewrite app_nil_l.
    unfold q at 1. rewrite app_cons, app_assoc, app_cons, app_nil_l. cbn [segs].
    destruct (Ascii.eqb_spec dquote "&"); [done|].
    fold (is_sep dquote). change (is_sep dquote) with false. cbv iota.
    rewrite ?Ascii.eqb_refl. rewrite segs_quoted_closed by done.
    rewrite <- (app_nil_r b) at 1. rewrite segs_plain by done. cbn [segs].
    replace ((snoc a dquote +:+ s +:+ String dquote EmptyString) +:+ b)
      with (a +:+ q s +:+ b) by (unfold q; str_eq).
    rewrite Nat.sub_diag.
    rewrite lt_size_minus_1_lt; [|unfold q; sizes|lia].
    do 2 f_equal. by destruct (has_amp a), (has_amp b).
  - intros Hpos. rewrite parse_line_segs. rewrite segs_plain by done. rewrite app_nil_l.
    cbn [segs].
    destruct (Ascii.eqb_spec dquote "&"); [done|].
    fold (is_sep dquote). change (is_sep dquote) with false. cbv iota.
    rewrite ?Ascii.eqb_refl. rewrite segs_quoted_open by done.
    replace (snoc a dquote +:+ s) with (a +:+ String dquote s) by str_eq.
    rewrite Nat.sub_diag.
    rewrite lt_size_minus_1_lt; [|sizes|].
    + do 2 f_equal. by destruct (has_amp a).
    + unfold q in Hsz. revert Hsz. sizes.
Qed.

Lemma quoted_span_is_not_split_witness :
  parse_line ("echo " +:+ q "a | b & c" +:+ " &") = Some (["echo " +:+ q "a | b & c" +:+ " &"], true) /\
  parse_line ("echo " +:+ String dquote "a | b &") = Some (["echo " +:+ String dquote "a | b &"], false).
Proof.
  split.
  - apply (quoted_span_is_not_split "echo " "a | b & c" " &"); by vm_compute.
  - apply (quoted_span_is_not_split "echo " "a | b &" EmptyString); try by vm_compute.
    vm_compute. lia.
Defined.

Section redirect_end_to_end.

Lemma join_args_nonempty a args rest : join_args (a :: args) rest <> EmptyString.
Proof. cbn [join_args]. by destruct (show a). Qed.

Lemma op_text_at_0 op :
  Ascii.eqb (at_ (op_text op) 0) ">" = match op with From_file => false | _ => true end.
Proof. by destruct op. Qed.

(** [run_cmd_tokens] on tokens that end with an operator and a path. *)
Lemma run_cmd_tokens_redirect argv op path bg :
  run_cmd_tokens (argv ++ [op_text op; path]) bg = launch argv (op_spec op path) bg.
Proof.
  unfold run_cmd_tokens, launch.
  rewrite length_app. cbn [length].
  destruct (Nat.ltb_spec 1 (length argv + 2)); [|lia].
  replace (length argv + 2 - 2) with (length argv + 0) by lia.
  rewrite lookup_total_app_r by lia.
  replace (length argv + 0 - length argv) with 0 by lia.
  change ([op_text op; path] !!! 0) with (op_text op).
  replace (List.last (argv ++ [op_text op; path]) EmptyString) with path.
  2:{ change [op_text op; path] with ([op_text op] ++ [path]).
      by rewrite List.app_assoc, List.last_last. }
  assert (Hcut : take (Z.to_nat (Z.of_nat (length argv + 2) + 1 - 2 - 1))
                   (argv ++ [op_text op; path]) = argv).
  { replace (Z.to_nat _) with (length argv) by lia. by rewrite take_app_length. }
  destruct op;
    cbn [op_text op_spec redirect_calls String.eqb Ascii.eqb Bool.eqb at_ String.get] in *;
    cbv iota; by rewrite Hcut.
Qed.

End redirect_end_to_end.

(** X6: a command text that ends with a redirect operator and a path,
    [>], [>>] or [<], the path a bare word of two or more characters or a
    quoted text, makes the child set up that redirect on the path and call
    [execvp] on the arguments before the operator alone. *)
Theorem run_cmd_redirect (args : list arg) (op : redirect_op) (target : arg)
    (is_background : bool) :
  Forall (fun a => arg_ok a = true) args -> arg_ok target = true ->
  kept_at_end target = true ->
  (Z.of_nat (size (join_args (args ++ [Bare (op_text op)]) (show target))) < 2 ^ 31)%Z ->
  run_cmd (join_args (args ++ [Bare (op_text op)]) (show target)) is_background
  = Some (launch (map value args) (op_spec op (value target)) is_background).
Proof.
  intros Hargs Htarget Hkept Hsz. unfold run_cmd.
  rewrite tokenize_toks. cbn [mbind option_bind].
  rewrite tokens_of_join_args; [|apply Forall_app; split; [done|]|done| |done].
  - rewrite Hkept, map_app, <- List.app_assoc. cbn [map value app].
    by rewrite run_cmd_tokens_redirect.
  - constructor; [by destruct op|constructor].
  - destruct args; apply join_args_nonempty.
Qed.

Lemma run_cmd_redirect_witness :
  run_cmd ("sort -r < " +:+ q "my list") true
  = Some [CSetpgid 0 0; CClose STDIN_FILENO; COpen "my list" [O_RDONLY] None;
          CDup2_opened STDIN_FILENO; CExecvp ["sort"; "-r"]; CPrint_error 1; CExit (-1)].
Proof.
  apply (run_cmd_redirect [Bare "sort"; Bare "-r"] From_file (Quoted "my list") true).
  - repeat constructor.
  - by vm_compute.
  - by vm_compute.
  - by vm_compute.
Defined.

(** ** The outcome of a line *)

Section outcomes.

Lemma segs_out_length s : forall inq skip cur out bg,
  length out <= length (segs s inq skip cur out bg).1.2.
Proof.
  induction s as [|c s IH]; intros inq skip cur out bg; [done|].
  cbn [segs]. destruct inq; [apply IH|].
  destruct (is_sep c).
  - etransitivity; [|apply IH]. rewrite length_app. simpl. lia.
  - destruct (Ascii.eqb c dquote); apply IH.
Qed.

(** As long as no separator is met the text read is all in [cur]. *)
Lemma segs_no_split s : forall inq cur out bg,
  length (segs s inq false cur out bg).1.2 = length out ->
  (segs s inq false cur out bg).1.1 = cur +:+ s.
Proof.
  induction s as [|c s IH]; intros inq cur out bg H.
  - simpl. by rewrite app_nil_r.
  - cbn [segs] in *. destruct inq.
    + rewrite IH by done. str_eq.
    + destruct (is_sep c).
      * pose proof (segs_out_length s false (begins_with_space s) EmptyString (out ++ [cur])
                      (if Ascii.eqb c "&" then true else bg)) as Hl.
        rewrite length_app in Hl. simpl in Hl. lia.
      * destruct (Ascii.eqb c dquote); rewrite IH by done; str_eq.
Qed.

(** The pipe loop is entered on an empty [piped] exactly on a line of one
    character that is no separator. *)
Lemma parse_line_no_segment input :
  (Z.of_nat (size input) < 2 ^ 31)%Z ->
  exists piped bg,
    parse_line input = Some (piped, bg) /\
    (piped = [] <-> size input = 1 /\ is_sep (at_ input 0) = false).
Proof.
  intros Hsz. rewrite parse_line_segs.
  pose proof (segs_no_split input false EmptyString [] false) as Hcur.
  destruct (segs input false false EmptyString [] false) as [[cur out] bg] eqn:E.
  cbn [fst snd] in Hcur. rewrite app_nil_l in Hcur.
  eexists _, bg. split; [reflexivity|]. split.
  - intros Hnil.
    assert (Hout : out = []).
    { destruct (lt_size_minus_1 _ _); [by apply app_eq_nil in Hnil as [? _]|done]. }
    subst out. rewrite Hcur in * by done. rewrite Nat.sub_diag in Hnil.
    destruct input as [|c [|c' r]].
    + by vm_compute in Hnil.
    + split; [done|]. rewrite at_0. destruct (is_sep c) eqn:Hs; [|done].
      cbn [segs] in E. rewrite Hs in E. simpl in E. by injection E.
    + rewrite lt_size_minus_1_lt in Hnil; [done|sizes|lia].
  - intros [H1 Hs]. destruct input as [|c [|c' r]]; [done| |by rewrite !size_cons in H1].
    rewrite at_0 in Hs. cbn [segs] in E. rewrite Hs in E.
    destruct (Ascii.eqb c dquote); simpl in E; injection E as <- <- <-; by vm_compute.
Qed.

Lemma run_pipeline_outcome piped bg fd k :
  (run_pipeline piped bg fd k).1 = match piped with [] => Undefined | _ => Next end.
Proof.
  destruct piped as [|s0 piped0]; [done|].
  unfold run_pipeline, bind, ret.
  repeat match goal with |- context [let '(_, _) := ?m in _] => destruct m end.
  done.
Qed.

Lemma starts_with_inv p s : starts_with p s = true -> exists r, s = p +:+ r.
Proof.
  unfold starts_with. revert s. induction p as [|c p IH]; intros s H.
  - by exists s.
  - destruct s as [|c' s]; [done|]. cbn [String.prefix] in H.
    destruct (Ascii.ascii_dec c c') as [->|]; [|done].
    destruct (IH s H) as (r & ->). by exists r.
Qed.

Lemma substr_from_color c name : substr_from ("color" +:+ String c name) 6 = Some name.
Proof. exact (substr_from_suffix ("color" +:+ String c EmptyString) name). Qed.

End outcomes.

(** The outcome the model gives a line. *)
Lemma iteration_line_outcome (ORIG_STDIN : Z) (input : string) (fd : Z * Z) (k : kernel) :
  (Z.of_nat (size input) < 2 ^ 31)%Z ->
  (iteration ORIG_STDIN input fd k).1 = line_outcome input.
Proof.
  intros Hsz. unfold iteration, bind.
  destruct (read_line ORIG_STDIN input k) as [[] k1].
  unfold builtins, line_outcome.
  destruct (String.eqb_spec input "exit") as [->|Hexit]; [done|].
  destruct (String.eqb_spec input "clear") as [->|_]; [done|].
  destruct (String.eqb_spec input "cls") as [->|_]; [done|].
  cbn [orb].
  destruct (String.eqb_spec input "cd") as [->|_].
  { unfold bind. destruct (handle_cd EmptyString k1) as [[] k2]. unfold ret.
    replace (parse_line "cd") with (Some (["cd"], false)) by (by vm_compute).
    by rewrite run_pipeline_outcome. }
  destruct (starts_with "cd " input) eqn:Hcd.
  { apply starts_with_inv in Hcd as (dir & ->).
    pose proof (substr_from_suffix "cd " dir) as Hs. change (size "cd ") with 3 in Hs.
    rewrite Hs. unfold bind. by destruct (handle_cd dir k1). }
  destruct (String.eqb_spec input "pwd") as [->|_]; [done|].
  cbn [orb].
  destruct (starts_with "pwd " input) eqn:Hpwd.
  { by apply starts_with_inv in Hpwd as (args & ->). }
  destruct (starts_with "color" input) eqn:Hcolor.
  { apply starts_with_inv in Hcolor as ([|c name] & ->); [done|].
    rewrite substr_from_color. unfold bind. by destruct (handle_color name k1). }
  destruct (String.eqb_spec input "color") as [->|_]; [done|].
  unfold ret.
  destruct (parse_line_no_segment input Hsz) as (piped & bg & -> & Hnil).
  rewrite run_pipeline_outcome.
  destruct piped as [|s0 piped0].
  - destruct Hnil as [[-> ->] _]; done.
  - destruct (Nat.eqb_spec (size input) 1) as [H1|]; [|done].
    destruct (is_sep (at_ input 0)) eqn:Hs; [done|].
    by destruct Hnil as [_ Hnil]; specialize (Hnil (conj H1 eq_refl)).
Qed.

(** X7: the three ways in which a pass through the loop body does not
    come to its end can be read off the text of the line.  [main] returns
    on the line [exit] and on no other, and it returns 0; [substr] throws
    on the line [color] with nothing after it and on no other; the pipe
    loop is reached with no segment at all on a line of one character that
    is no separator and on no other.  Whether the pass on any other line
    gets as far as the next prompt also depends on [wait(NULL)] returning,
    which is not decided here. *)
Theorem iteration_outcome (ORIG_STDIN : Z) (input : string) (fd : Z * Z) (k : kernel) :
  (Z.of_nat (size input) < 2 ^ 31)%Z ->
  (forall status, (iteration ORIG_STDIN input fd k).1 = Exited status
                  <-> input = "exit" /\ status = 0%Z) /\
  ((iteration ORIG_STDIN input fd k).1 = Uncaught <-> input = "color") /\
  ((iteration ORIG_STDIN input fd k).1 = Undefined
   <-> size input = 1 /\ is_sep (at_ input 0) = false).
Proof.
  intros Hsz. rewrite iteration_line_outcome by done. unfold line_outcome.
  destruct (String.eqb_spec input "exit") as [->|Hexit].
  { split; [|split]; [intros status|..]; split; try done.
    - by intros [= <-].
    - by intros [_ ->].
    - by intros [? _]. }
  destruct (String.eqb_spec input "color") as [->|Hcolor].
  { split; [|split]; [intros status|..]; split; try done.
    - by intros [? _].
    - by intros [? _]. }
  destruct (Nat.eqb_spec (size input) 1) as [H1|H1];
    [destruct (is_sep (at_ input 0)) eqn:Hs|]; cbn [andb negb];
    (split; [|split]; [intros status|..]; split; try done);
    try (by intros [? _]); by intros [_ ?].
Qed.

Lemma iteration_outcome_witness :
  (iteration 3 "exit" (0, 0)%Z (boot 100)).1 = Exited 0 /\
  (iteration 3 "color" (0, 0)%Z (boot 100)).1 = Uncaught /\
  (iteration 3 "w" (0, 0)%Z (boot 100)).1 = Undefined /\
  (iteration 3 EmptyString (0, 0)%Z (boot 100)).1 <> Undefined.
Proof.
  split; [|split; [|split]].
  - apply (iteration_outcome 3 "exit" (0, 0)%Z (boot 100)); by vm_compute.
  - apply (iteration_outcome 3 "color" (0, 0)%Z (boot 100)); by vm_compute.
  - apply (iteration_outcome 3 "w" (0, 0)%Z (boot 100)); by vm_compute.
  - intros H. apply (iteration_outcome 3 EmptyString (0, 0)%Z (boot 100)) in H;
      [by destruct H|by vm_compute].
Defined.

(** X8: the [color] built-in takes the name from position 6 on, so the
    character after the word [color] is skipped whatever it is; the shell
    then prints the escape code of the name, or the error text when the name
    is not in the table, makes no other call and goes back to the prompt. *)
Theorem color_skips_one_character (c : ascii) (name : string) (k : kernel) :
  builtins ("color" +:+ String c name) k = (Some Next, log (Printf (color_text name)) k).
Proof.
  unfold builtins. rewrite substr_from_color, starts_with_app.
  assert (E : "color" +:+ String c name
              = String "c" (String "o" (String "l" (String "o" (String "r" (String c name))))))
    by reflexivity.
  rewrite E.
  assert (starts_with "cd "
            (String "c" (String "o" (String "l" (String "o" (String "r" (String c name))))))
          = false) as -> by reflexivity.
  assert (starts_with "pwd "
            (String "c" (String "o" (String "l" (String "o" (String "r" (String c name))))))
          = false) as -> by reflexivity.
  cbn [String.eqb Ascii.eqb Bool.eqb orb andb].
  unfold bind, handle_color, color_text, emit, ret.
  by destruct (COLORS !! name).
Qed.



(** X10: on a line that starts with [cd] and a space the shell calls
    [chdir] once, on everything after that space as it stands, spaces and
    quotes included, and goes back to the prompt; a failed [chdir] is
    reported with error 2; when nothing follows the space the target is the
    home directory and a failure is not reported. *)
Theorem cd_line_calls_chdir (dir : string) (k : kernel) :
  (builtins ("cd " +:+ dir) k).1 = Some Next /\
  trace (builtins ("cd " +:+ dir) k).2 = trace k ++ cd_calls k dir /\
  error_text 2
  = ESC +:+ "[0;31mError (2):" +:+ ESC +:+ "[0m no such directory" +:+ newline.
Proof.
  pose proof (substr_from_suffix "cd " dir) as Hs. change (size "cd ") with 3 in Hs.
  unfold builtins. rewrite Hs, starts_with_app.
  assert (E : "cd " +:+ dir = String "c" (String "d" (String " " dir))) by reflexivity.
  rewrite E. cbn [String.eqb Ascii.eqb Bool.eqb orb andb].
  unfold handle_cd, cd_calls.
  destruct dir as [|c dir]; cbn [String.eqb];
    unfold bind, sys_chdir, print_error, emit, ret; [done|].
  destruct (chdir_ok k (Dir (String c dir)));
    [change ((0 =? -1)%Z) with false|change ((-1 =? -1)%Z) with true];
    cbv iota beta; kernel_fields; rewrite <- ?List.app_assoc; by repeat split.
Qed.

(** ** The pipeline, call by call *)

Section pipeline_steps.

Lemma sys_pipe_spec k :
  exists r w k1,
    sys_pipe k = ((r, w), k1) /\
    fds k !! r = None /\ fds k !! w = None /\ r <> w /\
    fds k1 = <[w := PipeWrite (npipes k)]> (<[r := PipeRead (npipes k)]> (fds k)) /\
    npipes k1 = S (npipes k) /\ next_pid k1 = next_pid k /\
    fork_fails k1 = fork_fails k /\ spawned k1 = spawned k /\
    trace k1 = trace k ++ [Pipe r w].
Proof.
  set (r := lowest_free (fds k)).
  set (t1 := <[r := PipeRead (npipes k)]> (fds k)).
  set (w := lowest_free t1).
  assert (Hr : fds k !! r = None) by apply lowest_free_free.
  assert (Hw : t1 !! w = None) by apply lowest_free_free.
  assert (Hwr : w <> r).
  { intros E. rewrite E in Hw. subst t1. by rewrite lookup_insert_eq in Hw. }
  assert (Hw' : fds k !! w = None).
  { subst t1. by rewrite lookup_insert_ne in Hw. }
  exists r, w. eexists. split; [reflexivity|]. kernel_fields.
  repeat split; done.
Qed.

Lemma sys_fork_fds stdout cmd bg k : fds (sys_fork stdout cmd bg k).2 = fds k.
Proof. unfold sys_fork. by destruct (fork_fails k) as [|[] rest]. Qed.

Lemma sys_dup2_fds oldfd newfd k d :
  d <> newfd -> fds (sys_dup2 oldfd newfd k).2 !! d = fds k !! d.
Proof.
  intros Hd. unfold sys_dup2. destruct (fds k !! oldfd); kernel_fields; [|done].
  by rewrite lookup_insert_ne.
Qed.

(** The descriptor table after the lines 142 to 149. *)
Lemma after_loop_fds fd' cmd bg k :
  fds ((sys_dup2 (fst fd') STDIN_FILENO ;;
        childpid <- sys_fork None cmd bg ;;
        (if (childpid <? 0)%Z then print_error 0 else ret tt) ;;
        (if negb bg then emit Wait_NULL else ret tt) ;;
        sys_close (snd fd') ;;
        ret Next) k).2
  = delete (snd fd') (fds (sys_dup2 (fst fd') STDIN_FILENO k).2).
Proof.
  unfold bind. destruct (sys_dup2 fd'.1 STDIN_FILENO k) as [[] k1]. cbn [snd].
  pose proof (sys_fork_fds None cmd bg k1) as Hf.
  destruct (sys_fork None cmd bg k1) as [pid k2]. cbn [snd] in Hf.
  destruct (pid <? 0)%Z, bg; unfold print_error, emit, ret, sys_close;
    cbn [negb]; cbv beta iota; kernel_fields; by rewrite Hf.
Qed.

(** Whatever [fork] returns, the pipe loop leaves open what was open,
    standard input apart, and the descriptor it leaves in [fd[1]] was not in
    use when it started. *)
Lemma pipe_loop_frame iters : forall i piped bg fd k,
  is_Some (fds k !! 0%Z) ->
  is_Some (fds (pipe_loop iters i piped bg fd k).2 !! 0%Z) /\
  (forall d f, d <> 0%Z -> fds k !! d = Some f ->
     fds (pipe_loop iters i piped bg fd k).2 !! d = Some f) /\
  (0 < iters -> fds k !! (pipe_loop iters i piped bg fd k).1.2 = None) /\
  (iters = 0 -> (pipe_loop iters i piped bg fd k).1 = fd).
Proof.
  induction iters as [|m IH]; intros i piped bg fd k H0.
  - cbn [pipe_loop]. unfold ret. cbn [fst snd]. repeat split; (done || lia).
  - destruct (sys_pipe_spec k) as (r & w & k1 & Hp & Hr & Hw & Hrw & Hfds & _).
    assert (Hr0 : r <> 0%Z) by (intros ->; rewrite Hr in H0; by destruct H0).
    assert (Hw0 : w <> 0%Z) by (intros ->; rewrite Hw in H0; by destruct H0).
    destruct (pipe_loop (S m) i piped bg fd k) as [fd' k'] eqn:E.
    cbn [pipe_loop] in E. erewrite bind_run in E by exact Hp.
    unfold bind at 1 in E. cbn [fst snd] in *.
    pose proof (sys_fork_fds (Some w) (piped !!! i) bg k1) as Hf.
    destruct (sys_fork (Some w) (piped !!! i) bg k1) as [pid k2].
    cbn [fst snd] in *. rewrite Hfds in Hf.
    destruct (pid <? 0)%Z.
    + unfold bind, print_error, emit, ret in E. injection E as <- <-.
      kernel_fields. rewrite Hf.
      split; [|split; [|split]].
      * destruct H0 as [f0 H0]. exists f0. by rewrite !lookup_insert_ne.
      * intros d f Hd Hdf. rewrite !lookup_insert_ne; [done|congruence|congruence].
      * done.
      * lia.
    + erewrite bind_run in E.
      2:{ apply (sys_dup2_open _ _ _ (PipeRead (npipes k))).
          by rewrite Hf, lookup_insert_ne, lookup_insert_eq. }
      erewrite bind_run in E by (unfold sys_close; reflexivity).
      set (k3 := log (Close w) _) in E.
      assert (Hk3 : forall d, fds k3 !! d =
                if decide (d = w) then None
                else if decide (d = 0%Z) then Some (PipeRead (npipes k))
                else if decide (d = r) then Some (PipeRead (npipes k))
                else fds k !! d).
      { intros d. subst k3. kernel_fields. rewrite Hf. unfold STDIN_FILENO.
        repeat case_decide; subst; simplify_map_eq; done. }
      assert (H03 : is_Some (fds k3 !! 0%Z)).
      { rewrite Hk3. repeat case_decide; by eauto. }
      destruct (IH (i + 1) piped bg (r, w) k3 H03) as (IH0 & IHkeep & IHfresh & IHfd).
      rewrite E in IH0, IHkeep, IHfresh, IHfd. cbn [fst snd] in *.
      assert (Hkeep3 : forall d f, d <> 0%Z -> fds k !! d = Some f -> fds k3 !! d = Some f).
      { intros d f Hd Hdf. rewrite Hk3. repeat case_decide; subst; congruence. }
      split; [done|]. split; [by eauto|]. split; [|lia].
      intros _. destruct m as [|m].
      * rewrite IHfd by done. done.
      * specialize (IHfresh ltac:(lia)).
        destruct (fds k !! fd'.2) as [f|] eqn:E2; [|done].
        destruct (decide (fd'.2 = 0%Z)) as [Ez|Ez].
        -- rewrite Ez in IHfresh. rewrite IHfresh in H03. by destruct H03.
        -- apply Hkeep3 in E2; [|done]. congruence.
Qed.

(** [run_pipeline] leaves open what was open, standard input apart; on a
    line of one segment this needs the content of [fd[1]] to be some other
    number. *)
Lemma run_pipeline_frame piped bg fd k d f :
  is_Some (fds k !! 0%Z) -> d <> 0%Z -> fds k !! d = Some f ->
  (length piped <= 1 -> fd.2 <> d) ->
  fds (run_pipeline piped bg fd k).2 !! d = Some f.
Proof.
  intros H0 Hd Hdf Hfd. destruct piped as [|s0 piped0]; [done|].
  unfold run_pipeline.
  destruct (pipe_loop_frame (length (s0 :: piped0) - 1) 0 (s0 :: piped0) bg fd k H0)
    as (_ & Hkeep & Hfresh & Hsame).
  unfold bind at 1.
  destruct (pipe_loop (length (s0 :: piped0) - 1) 0 (s0 :: piped0) bg fd k) as [fd' k1].
  cbn [fst snd] in *.
  rewrite after_loop_fds.
  assert (Hne : fd'.2 <> d).
  { destruct (length (s0 :: piped0) - 1) as [|m] eqn:E.
    - rewrite Hsame by done. apply Hfd. cbn [length] in *. lia.
    - intros <-. rewrite Hfresh in Hdf by lia. done. }
  rewrite lookup_delete_ne by done.
  rewrite sys_dup2_fds by done. by apply Hkeep.
Qed.

Lemma read_line_fds ORIG input k f :
  fds k !! ORIG = Some f ->
  fds (read_line ORIG input k).2 = <[STDIN_FILENO := f]> (fds k).
Proof.
  intros H. unfold read_line, bind, emit. kernel_fields.
  rewrite (sys_dup2_open _ _ _ f) by done. by kernel_fields.
Qed.

Lemma handle_cd_state dir k :
  fds (handle_cd dir k).2 = fds k /\ spawned (handle_cd dir k).2 = spawned k /\
  npipes (handle_cd dir k).2 = npipes k /\ next_pid (handle_cd dir k).2 = next_pid k.
Proof.
  unfold handle_cd, bind, sys_chdir, print_error, emit, ret.
  destruct (String.eqb dir EmptyString); [done|].
  by destruct (chdir_ok k (Dir dir)).
Qed.

Lemma builtins_fds input k : fds (builtins input k).2 = fds k.
Proof.
  unfold builtins.
  destruct (String.eqb input "exit"); [done|].
  destruct (String.eqb input "clear" || String.eqb input "cls"); [done|].
  destruct (String.eqb input "cd").
  { unfold bind. pose proof (handle_cd_state EmptyString k) as [H _].
    by destruct (handle_cd EmptyString k). }
  destruct (starts_with "cd " input).
  { destruct (substr_from input 3) as [dir|]; [|done].
    unfold bind. pose proof (handle_cd_state dir k) as [H _]. by destruct (handle_cd dir k). }
  destruct (String.eqb input "pwd" || starts_with "pwd " input); [done|].
  destruct (starts_with "color" input); [|done].
  destruct (substr_from input 6) as [color|]; [|done].
  unfold bind, handle_color, emit, ret. by destruct (COLORS !! color).
Qed.

(** One pass through the loop body keeps the saved descriptor. *)
Lemma iteration_keeps_saved ORIG input fd k f :
  ORIG <> STDIN_FILENO -> fds k !! ORIG = Some f -> fd.2 <> ORIG ->
  fds (iteration ORIG input fd k).2 !! ORIG = Some f.
Proof.
  intros Hne Hf Hfd. unfold iteration. unfold bind at 1.
  pose proof (read_line_fds ORIG input k f Hf) as Hr.
  destruct (read_line ORIG input k) as [[] k1]. cbn [snd] in Hr.
  unfold bind.
  pose proof (builtins_fds input k1) as Hb.
  destruct (builtins input k1) as [o k2]. cbn [snd] in Hb.
  assert (H2 : fds k2 !! ORIG = Some f) by (by rewrite Hb, Hr, lookup_insert_ne).
  destruct o as [o|]; [done|].
  destruct (parse_line input) as [[piped bg]|]; [|done].
  apply run_pipeline_frame; [|done|done|done].
  rewrite Hb, Hr. unfold STDIN_FILENO. rewrite lookup_insert_eq. by eauto.
Qed.

Lemma read_loop_keeps_saved ORIG f lines : forall k,
  ORIG <> STDIN_FILENO -> fds k !! ORIG = Some f ->
  Forall (fun l => l.2.2 <> ORIG) lines ->
  fds (read_loop ORIG lines k).2 !! ORIG = Some f.
Proof.
  induction lines as [|[input fd] lines IH]; intros k Hne Hf Hl; [done|].
  inversion Hl as [|? ? Hfd Hl']; subst. cbn [fst snd] in Hfd.
  cbn [read_loop]. unfold bind.
  pose proof (iteration_keeps_saved ORIG input fd k f Hne Hf Hfd) as Hi.
  destruct (iteration ORIG input fd k) as [o k1]. cbn [snd] in Hi.
  destruct o; try done. by apply IH.
Qed.

End pipeline_steps.

(** X11: the shell keeps the descriptor it saves at start-up: through a
    whole session, whatever the lines are and whether [fork] fails or not,
    the duplicate of standard input made by line 56 stays open on the same
    file, so that the [dup2] of line 69 puts the shell's input back before
    every prompt.  On a line of one segment the pipe loop does not set [fd],
    and the statement needs [fd[1]] not to hold the number of the
    duplicate. *)
Theorem saved_stdin_survives (lines : list (string * (Z * Z))) (k : kernel) (f : file)
    (next : string) :
  fds k !! STDIN_FILENO = Some f ->
  Forall (fun l => l.2.2 <> lowest_free (fds k)) lines ->
  fds (main lines k).2 !! lowest_free (fds k) = Some f /\
  fds (read_line (lowest_free (fds k)) next (main lines k).2).2 !! STDIN_FILENO = Some f.
Proof.
  intros H0 Hl.
  assert (Hfree : fds k !! lowest_free (fds k) = None) by apply lowest_free_free.
  assert (Hne : lowest_free (fds k) <> STDIN_FILENO) by (intros E; congruence).
  assert (Hmain : fds (main lines k).2 !! lowest_free (fds k) = Some f).
  { unfold main, bind, emit, sys_dup. kernel_fields. rewrite H0. kernel_fields.
    apply read_loop_keeps_saved; [done| |done].
    kernel_fields. by rewrite lookup_insert_eq. }
  split; [done|].
  rewrite (read_line_fds _ _ _ f) by done. by rewrite lookup_insert_eq.
Qed.

Lemma saved_stdin_survives_witness :
  fds (main [("ls | wc", (0, 0)%Z); ("ls", (7, 8)%Z); ("cd /tmp", (7, 8)%Z)] (boot 100)).2 !! 3%Z
  = Some Terminal /\
  fds (read_line 3 "pwd"
         (main [("ls | wc", (0, 0)%Z); ("ls", (7, 8)%Z); ("cd /tmp", (7, 8)%Z)] (boot 100)).2).2
    !! STDIN_FILENO = Some Terminal.
Proof.
  apply (saved_stdin_survives
           [("ls | wc", (0, 0)%Z); ("ls", (7, 8)%Z); ("cd /tmp", (7, 8)%Z)] (boot 100) Terminal "pwd").
  - by vm_compute.
  - repeat constructor; by vm_compute.
Defined.

Section pipeline_children.

(** One pass through the body of the pipe loop when [fork] succeeds, with
    the child it leaves behind. *)
Lemma pipe_loop_step iters i piped bg fd k :
  forks_succeed k -> is_Some (fds k !! 0%Z) ->
  exists r w k1 c,
    pipe_loop (S iters) i piped bg fd k = pipe_loop iters (i + 1) piped bg (r, w) k1 /\
    forks_succeed k1 /\ npipes k1 = S (npipes k) /\ next_pid k1 = (next_pid k + 1)%Z /\
    r <> 0%Z /\ w <> 0%Z /\ r <> w /\ fds k !! r = None /\ fds k !! w = None /\
    (forall d, fds k1 !! d =
       if decide (d = w) then None
       else if decide (d = 0%Z) then Some (PipeRead (npipes k))
       else if decide (d = r) then Some (PipeRead (npipes k))
       else fds k !! d) /\
    spawned k1 = spawned k ++ [c] /\
    c_pid c = next_pid k /\ c_cmd c = piped !!! i /\ c_background c = bg /\
    c_stdout c = Some w /\
    c_fds c = <[w := PipeWrite (npipes k)]> (<[r := PipeRead (npipes k)]> (fds k)).
Proof.
  intros [Hff Hpid] H0.
  destruct (sys_pipe_spec k) as (r & w & k1 & Hp & Hr & Hw & Hrw & Hfds & Hn & Hnp & Hfk & Hsp & _).
  assert (Hr0 : r <> 0%Z) by (intros ->; rewrite Hr in H0; by destruct H0).
  assert (Hw0 : w <> 0%Z) by (intros ->; rewrite Hw in H0; by destruct H0).
  cbn [pipe_loop].
  erewrite bind_run by exact Hp.
  erewrite bind_run by (apply sys_fork_ok; congruence).
  rewrite Hnp. destruct (Z.ltb_spec (next_pid k) 0) as [|_]; [lia|].
  erewrite bind_run.
  2:{ apply (sys_dup2_open _ _ _ (PipeRead (npipes k))). kernel_fields.
      by rewrite Hfds, lookup_insert_ne, lookup_insert_eq. }
  erewrite bind_run by (unfold sys_close; reflexivity).
  eexists r, w, _, _. split; [reflexivity|].
  kernel_fields. unfold forks_succeed. kernel_fields.
  rewrite Hfds, Hsp.
  repeat split; try done; try lia.
  intros d. unfold STDIN_FILENO.
  repeat case_decide; subst; simplify_map_eq; done.
Qed.

Lemma last_lookup_total (l : list string) :
  l <> [] -> List.last l EmptyString = l !!! (length l - 1).
Proof.
  induction l as [|a l IH]; [done|]. intros _.
  destruct l as [|b l]; [done|].
  change (List.last (a :: b :: l) EmptyString) with (List.last (b :: l) EmptyString).
  rewrite IH by done. cbn [length]. replace (S (S (length l)) - 1) with (S (length l)) by lia.
  replace (S (length l) - 1) with (length l) by lia. done.
Qed.

(** The children of the pipe loop when every [fork] succeeds. *)
Lemma pipe_loop_children iters : forall i piped bg fd k,
  forks_succeed k -> is_Some (fds k !! 0%Z) ->
  exists fd' k' cs,
    pipe_loop iters i piped bg fd k = (fd', k') /\
    forks_succeed k' /\
    spawned k' = spawned k ++ cs /\ length cs = iters /\
    next_pid k' = (next_pid k + Z.of_nat iters)%Z /\
    (forall d f, d <> 0%Z -> fds k !! d = Some f -> fds k' !! d = Some f) /\
    (0 < iters ->
       fds k' !! 0%Z = Some (PipeRead (npipes k + iters - 1)) /\
       fds k' !! fd'.1 = Some (PipeRead (npipes k + iters - 1))) /\
    (forall j c, cs !! j = Some c ->
       c_pid c = (next_pid k + Z.of_nat j)%Z /\
       c_cmd c = piped !!! (i + j) /\
       c_background c = bg /\
       c_fds c !! 0%Z
       = match j with
         | O => fds k !! 0%Z
         | S j' => Some (PipeRead (npipes k + j'))
         end /\
       (forall d f, d <> 0%Z -> fds k !! d = Some f -> c_fds c !! d = Some f) /\
       exists w, c_stdout c = Some w /\ c_fds c !! w = Some (PipeWrite (npipes k + j))).
Proof.
  induction iters as [|m IH]; intros i piped bg fd k Hf H0.
  - exists fd, k, []. cbn [pipe_loop]. unfold ret.
    split; [done|]. split; [done|]. split; [by rewrite List.app_nil_r|].
    split; [done|]. split; [lia|]. split; [done|]. split; [lia|]. done.
  - destruct (pipe_loop_step m i piped bg fd k Hf H0)
      as (r & w & k1 & c & Heq & Hf1 & Hn1 & Hp1 & Hr0 & Hw0 & Hrw & Hr & Hw & Hlk & Hsp
          & Hcp & Hcc & Hcb & Hco & Hcf).
    assert (H01 : is_Some (fds k1 !! 0%Z)).
    { rewrite Hlk. repeat case_decide; by eauto. }
    assert (Hkeep1 : forall d f, d <> 0%Z -> fds k !! d = Some f -> fds k1 !! d = Some f).
    { intros d f Hd Hdf. rewrite Hlk. repeat case_decide; subst; congruence. }
    destruct (IH (i + 1) piped bg (r, w) k1 Hf1 H01)
      as (fd' & k' & cs & Heq' & Hf' & Hsp' & Hlen & Hp' & Hkeep & Hlast & Hcs).
    exists fd', k', (c :: cs). rewrite Heq, Heq'.
    split; [done|]. split; [done|].
    split; [by rewrite Hsp', Hsp, <- List.app_assoc|].
    split; [cbn [length]; lia|]. split; [lia|].
    split; [by eauto|]. split.
    { intros _. destruct m as [|m].
      - cbn [pipe_loop] in Heq'. unfold ret in Heq'. injection Heq' as <- <-.
        cbn [fst]. replace (npipes k + 1 - 1) with (npipes k) by lia.
        rewrite !Hlk. repeat case_decide; done.
      - destruct Hlast as [Ha Hb]; [lia|]. rewrite Ha, Hb, Hn1.
        split; do 2 f_equal; lia. }
    intros j c' Hj. destruct j as [|j].
    + injection Hj as <-. rewrite Hcp, Hcc, Hcb, Hco, Hcf.
      split; [lia|]. split; [by rewrite Nat.add_0_r|]. split; [done|].
      split; [by rewrite !lookup_insert_ne|].
      split.
      * intros d f Hd Hdf. rewrite !lookup_insert_ne; [done|congruence|congruence].
      * exists w. split; [done|]. by rewrite lookup_insert_eq, Nat.add_0_r.
    + cbn [lookup list_lookup] in Hj.
      destruct (Hcs j c' Hj) as (Ep & Ec & Eb & E0 & Ekeep & (w' & Eo & Ew)).
      split; [lia|]. split; [rewrite Ec; f_equal; lia|]. split; [done|].
      split.
      { rewrite E0. destruct j as [|j].
        - rewrite Hlk. repeat case_decide; try done. by rewrite Nat.add_0_r.
        - rewrite Hn1. do 2 f_equal. lia. }
      split; [by eauto|].
      exists w'. split; [done|]. rewrite Ew, Hn1. do 2 f_equal. lia.
Qed.

End pipeline_children.

(** X12: the wiring of a pipeline.  When every [fork] succeeds, a line of
    n >= 2 segments leaves n children, one per segment and in the order of
    the segments; the first reads what the shell reads, every later one
    reads the pipe its predecessor writes; every child but the last is to
    put the write end of its own pipe on its standard output, the last keeps
    the shell's; and every child inherits the other descriptors the shell
    had. *)
Theorem pipeline_wiring (piped : list string) (is_background : bool) (fd : Z * Z)
    (k : kernel) :
  2 <= length piped -> forks_succeed k -> is_Some (fds k !! STDIN_FILENO) ->
  exists cs,
    spawned (run_pipeline piped is_background fd k).2 = spawned k ++ cs /\
    length cs = length piped /\
    forall j c, cs !! j = Some c -> wired k piped is_background j c.
Proof.
  intros Hlen Hf H0. unfold STDIN_FILENO in *.
  destruct piped as [|s0 piped0]; [simpl in Hlen; lia|].
  set (piped := s0 :: piped0) in *.
  destruct (pipe_loop_children (length piped - 1) 0 piped is_background fd k Hf H0)
    as (fd' & k' & cs & Heq & [Hff Hpid] & Hsp & Hcslen & Hp' & Hkeep & Hlast & Hcs).
  destruct Hlast as [Hl0 Hl1]; [lia|].
  unfold run_pipeline. subst piped. cbv iota. set (piped := s0 :: piped0) in *.
  erewrite bind_run by exact Heq.
  erewrite bind_run by (apply (sys_dup2_open _ _ _ _ Hl1)).
  erewrite bind_run by (apply sys_fork_ok; by kernel_fields).
  cbv beta. kernel_fields.
  destruct (Z.ltb_spec (next_pid k') 0) as [|_]; [lia|].
  set (c := {| c_pid := next_pid k' |}).
  exists (cs ++ [c]).
  split.
  { destruct is_background; unfold bind, ret, emit, sys_close; kernel_fields;
      by rewrite Hsp, <- List.app_assoc. }
  split; [rewrite length_app; cbn [length]; lia|].
  intros j c' Hj.
  destruct (decide (j < length cs)) as [Hlt|Hge].
  - rewrite lookup_app_l in Hj by done.
    destruct (Hcs j c' Hj) as (Ep & Ec & Eb & E0 & Ekeep & Ew).
    unfold wired, STDIN_FILENO.
    destruct (Nat.ltb_spec (j + 1) (length piped)); [|lia].
    by repeat split.
  - rewrite lookup_app_r in Hj by lia.
    destruct (j - length cs) as [|x] eqn:Ex; [|done].
    injection Hj as <-. assert (Ej : j = length piped - 1) by lia.
    unfold wired, STDIN_FILENO. subst c. cbn [c_pid c_cmd c_background c_fds c_stdout].
    destruct (Nat.ltb_spec (j + 1) (length piped)); [lia|].
    split; [rewrite Ej; by apply last_lookup_total|]. split; [done|].
    split.
    { rewrite lookup_insert_eq. destruct j as [|j]; [lia|]. do 2 f_equal. lia. }
    split; [|done].
    intros d f Hd Hdf. rewrite lookup_insert_ne by done. by eauto.
Qed.

Lemma pipeline_wiring_witness :
  exists cs,
    spawned (run_pipeline ["ls "; "sort "; "wc"] false (0, 0)%Z (boot 100)).2
    = spawned (boot 100) ++ cs /\
    length cs = 3 /\
    forall j c, cs !! j = Some c -> wired (boot 100) ["ls "; "sort "; "wc"] false j c.
Proof.
  apply (pipeline_wiring ["ls "; "sort "; "wc"] false (0, 0)%Z (boot 100)).
  - simpl. lia.
  - split; [reflexivity|]. simpl. lia.
  - exists Terminal. by vm_compute.
Defined.

Section wait_calls.

Lemma adds_waits_ret {A} (a : A) : adds_waits 0 (ret a).
Proof. intros k. exists []. by rewrite List.app_nil_r. Qed.

Lemma adds_waits_bind {A B} a b (m : M A) (f : A -> M B) :
  adds_waits a m -> (forall x, adds_waits b (f x)) -> adds_waits (a + b) (bind m f).
Proof.
  intros Hm Hf k. unfold bind.
  destruct (Hm k) as (t1 & H1 & W1). destruct (m k) as [x k1]. cbn [snd] in H1.
  destruct (Hf x k1) as (t2 & H2 & W2).
  exists (t1 ++ t2). split; [by rewrite H2, H1, List.app_assoc|].
  unfold waits in *. rewrite count_occ_app. lia.
Qed.

Lemma adds_waits_emit c : c <> Wait_NULL -> adds_waits 0 (emit c).
Proof.
  intros Hc k. exists [c]. split; [done|].
  unfold waits. cbn [count_occ]. by destruct (call_eq_dec c Wait_NULL).
Qed.

Lemma adds_waits_sys_dup2 oldfd newfd : adds_waits 0 (sys_dup2 oldfd newfd).
Proof.
  intros k. exists [Dup2 oldfd newfd]. unfold sys_dup2.
  by destruct (fds k !! oldfd).
Qed.

Lemma adds_waits_sys_fork stdout cmd bg : adds_waits 0 (sys_fork stdout cmd bg).
Proof.
  intros k. unfold sys_fork.
  destruct (fork_fails k) as [|[] rest]; by eexists [_].
Qed.

Lemma adds_waits_pipe_loop iters : forall i piped bg fd,
  adds_waits 0 (pipe_loop iters i piped bg fd).
Proof.
  induction iters as [|iters IH]; intros i piped bg fd; cbn [pipe_loop].
  - apply adds_waits_ret.
  - apply (adds_waits_bind 0 0); [intros k; by eexists [_]|]. intros fd'.
    apply (adds_waits_bind 0 0); [apply adds_waits_sys_fork|]. intros pid.
    destruct (pid <? 0)%Z.
    + apply (adds_waits_bind 0 0); [by apply adds_waits_emit|].
      intros _. apply adds_waits_ret.
    + apply (adds_waits_bind 0 0); [apply adds_waits_sys_dup2|]. intros _.
      apply (adds_waits_bind 0 0); [intros k; by eexists [_]|]. intros _. apply IH.
Qed.

End wait_calls.

(** X13: however many segments a line has and whatever [fork] returns,
    the shell calls [wait(NULL)] once when the line runs in the foreground
    and not at all when it runs in the background: of the children of a
    pipeline at most one is waited for. *)
Theorem one_wait_per_line (piped : list string) (is_background : bool) (fd : Z * Z)
    (k : kernel) :
  piped <> [] ->
  exists t,
    trace (run_pipeline piped is_background fd k).2 = trace k ++ t /\
    waits t = if is_background then 0 else 1.
Proof.
  intros Hne. destruct piped as [|s0 piped0]; [done|].
  assert (H : adds_waits (if is_background then 0 else 1)
                (run_pipeline (s0 :: piped0) is_background fd)); [|apply H].
  unfold run_pipeline.
  apply (adds_waits_bind 0 _); [apply adds_waits_pipe_loop|]. intros fd'.
  apply (adds_waits_bind 0 _); [apply adds_waits_sys_dup2|]. intros _.
  apply (adds_waits_bind 0 _); [apply adds_waits_sys_fork|]. intros pid.
  apply (adds_waits_bind 0 _).
  { destruct (pid <? 0)%Z; [by apply adds_waits_emit|apply adds_waits_ret]. }
  intros _.
  replace (if is_background then 0 else 1) with ((if is_background then 0 else 1) + 0) by lia.
  apply adds_waits_bind.
  { destruct is_background; [apply adds_waits_ret|]. intros k0. by exists [Wait_NULL]. }
  intros _. apply (adds_waits_bind 0 0); [intros k0; by eexists [_]|].
  intros _. apply adds_waits_ret.
Qed.

Lemma one_wait_per_line_witness :
  exists t,
    trace (run_pipeline ["ls "; "sort "; "wc"] false (0, 0)%Z (boot 100)).2
    = trace (boot 100) ++ t /\
    waits t = 1.
Proof. by apply (one_wait_per_line ["ls "; "sort "; "wc"] false (0, 0)%Z (boot 100)). Defined.

(** X14: when the first [fork] of a line of two or more segments fails,
    the shell reports error 0 and leaves the pipe loop, and then goes on
    with line 142: it forks once more, so that no segment but the last is
    started, and the last one is started with its standard input on the pipe
    that was just made and with the write end of that pipe in its own
    descriptor table.  The shell has not closed that end when it forks, nor
    when, in the foreground, it calls [wait(NULL)] as its next call.  What
    comes after that call is not stated. *)
Theorem first_fork_fails (piped : list string) (is_background : bool) (fd : Z * Z)
    (k : kernel) :
  2 <= length piped -> fork_fails k = [true] -> (0 < next_pid k)%Z ->
  is_Some (fds k !! STDIN_FILENO) ->
  exists r w c after,
    trace (run_pipeline piped is_background fd k).2
    = trace k ++ [Pipe r w; Fork (-1); Printf (error_text 0); Dup2 r STDIN_FILENO;
                  Fork (c_pid c)] ++ after /\
    (is_background = false -> exists rest, after = Wait_NULL :: rest) /\
    spawned (run_pipeline piped is_background fd k).2 = spawned k ++ [c] /\
    (0 < c_pid c)%Z /\
    c_cmd c = List.last piped EmptyString /\ c_stdout c = None /\
    c_fds c !! STDIN_FILENO = Some (PipeRead (npipes k)) /\
    c_fds c !! w = Some (PipeWrite (npipes k)) /\
    fds k !! r = None /\ fds k !! w = None /\ r <> w.
Proof.
  intros Hlen Hff Hpid H0. unfold STDIN_FILENO in *.
  destruct piped as [|s0 [|s1 piped1]]; [simpl in Hlen; lia|simpl in Hlen; lia|].
  set (piped := s0 :: s1 :: piped1) in *.
  destruct (sys_pipe_spec k) as (r & w & k1 & Hp & Hr & Hw & Hrw & Hfds & Hn & Hnp & Hfk & Hsp & Ht).
  assert (Hr0 : r <> 0%Z) by (intros ->; rewrite Hr in H0; by destruct H0).
  assert (Hw0 : w <> 0%Z) by (intros ->; rewrite Hw in H0; by destruct H0).
  unfold run_pipeline. subst piped. cbv iota. set (piped := s0 :: s1 :: piped1) in *.
  replace (length piped - 1) with (S (length piped1)) by (subst piped; cbn [length]; lia).
  cbn [pipe_loop].
  erewrite bind_run.
  2:{ erewrite bind_run by exact Hp.
      unfold bind at 1. unfold sys_fork at 1. rewrite Hfk, Hff.
      change ((-1 <? 0)%Z) with true. cbv iota.
      unfold bind, print_error, emit, ret. reflexivity. }
  erewrite bind_run.
  2:{ apply (sys_dup2_open _ _ _ (PipeRead (npipes k))). kernel_fields.
      by rewrite Hfds, lookup_insert_ne, lookup_insert_eq. }
  erewrite bind_run by (apply sys_fork_ok; by kernel_fields).
  cbv beta. kernel_fields. rewrite Hnp.
  destruct (Z.ltb_spec (next_pid k) 0) as [|_]; [lia|].
  set (c := {| c_pid := next_pid k |}).
  exists r, w, c, ((if is_background then [] else [Wait_NULL]) ++ [Close w]).
  destruct is_background; unfold bind, ret, emit, sys_close; cbn [negb]; cbv beta iota;
    kernel_fields; rewrite Ht, Hsp, <- ?List.app_assoc;
    (split; [reflexivity|]); (split; [by eauto|]); (split; [reflexivity|]);
    subst c; cbn [c_pid c_cmd c_stdout c_fds]; rewrite Hfds;
    (split; [done|]); (split; [done|]); (split; [done|]);
    (split; [by rewrite lookup_insert_eq|]);
    (split; [by rewrite lookup_insert_ne, lookup_insert_eq|done]).
Qed.

Lemma first_fork_fails_witness :
  exists r w c after,
    trace (run_pipeline ["ls "; "sort "; "wc"] false (0, 0)%Z
             (with_fds (fds (boot 100))
                {| fds := fds (boot 100); npipes := 0; next_pid := 100; fork_fails := [true];
                   chdir_ok := fun _ => true; spawned := []; trace := [] |})).2
    = [] ++ [Pipe r w; Fork (-1); Printf (error_text 0); Dup2 r STDIN_FILENO; Fork (c_pid c)]
      ++ after /\
    (false = false -> exists rest, after = Wait_NULL :: rest) /\
    spawned (run_pipeline ["ls "; "sort "; "wc"] false (0, 0)%Z
               (with_fds (fds (boot 100))
                  {| fds := fds (boot 100); npipes := 0; next_pid := 100; fork_fails := [true];
                     chdir_ok := fun _ => true; spawned := []; trace := [] |})).2
    = [] ++ [c] /\
    (0 < c_pid c)%Z /\
    c_cmd c = "wc" /\ c_stdout c = None /\
    c_fds c !! STDIN_FILENO = Some (PipeRead 0) /\
    c_fds c !! w = Some (PipeWrite 0) /\
    fds (boot 100) !! r = None /\ fds (boot 100) !! w = None /\ r <> w.
Proof.
  apply (first_fork_fails ["ls "; "sort "; "wc"] false (0, 0)%Z
           (with_fds (fds (boot 100))
              {| fds := fds (boot 100); npipes := 0; next_pid := 100; fork_fails := [true];
                 chdir_ok := fun _ => true; spawned := []; trace := [] |})).
  - simpl. lia.
  - reflexivity.
  - simpl. lia.
  - exists Terminal. by vm_compute.
Defined.

Section flag_words.

Lemma land_lor_keeps (a p flag : Z) :
  Z.land p flag = flag -> Z.land (Z.lor a p) flag = flag.
Proof.
  intros H. apply Z.bits_inj'. intros n Hn.
  apply (f_equal (fun z => Z.testbit z n)) in H.
  rewrite Z.land_spec in H. rewrite Z.land_spec, Z.lor_spec.
  by destruct (Z.testbit a n), (Z.testbit p n), (Z.testbit flag n).
Qed.

End flag_words.

(** X15: the two macros or the permission constants [S_IRUSR], [S_IWUSR],
    [S_IRGRP] and [S_IROTH] into the flag argument of [open], where they
    sit as the bits of 0644: whatever values the header gives the [O_]
    constants, every flag whose bits lie within 0644 is switched on in
    [FILEFLAGS] and in [FILEFLAGS_APPEND]; the flag of value 0200 is one. *)
Theorem permission_bits_are_open_flags (h : fcntl_h) (flag : Z) :
  Z.land (octal 6 4 4) flag = flag ->
  Z.land (flags_word h FILEFLAGS) flag = flag /\
  Z.land (flags_word h FILEFLAGS_APPEND) flag = flag.
Proof.
  intros H. unfold flags_word, FILEFLAGS, FILEFLAGS_APPEND.
  cbn [fmap list_fmap foldr flag_bits].
  change (Z.lor (octal 4 0 0) (Z.lor (octal 2 0 0) (Z.lor (octal 0 4 0) (Z.lor (octal 0 0 4) 0))))
    with (octal 6 4 4).
  split; repeat apply land_lor_keeps; done.
Qed.

Lemma permission_bits_are_open_flags_witness :
  Z.land (flags_word linux_fcntl FILEFLAGS) (octal 2 0 0) = octal 2 0 0 /\
  Z.land (flags_word linux_fcntl FILEFLAGS_APPEND) (octal 2 0 0) = octal 2 0 0.
Proof. apply (permission_bits_are_open_flags linux_fcntl (octal 2 0 0)). by vm_compute. Defined.

Section usual_lines.

Lemma all_chars_app P a b : all_chars P (a +:+ b) = all_chars P a && all_chars P b.
Proof.
  induction a as [|c a IH]; [done|].
  rewrite app_cons. simpl. rewrite IH. by rewrite andb_assoc.
Qed.

Lemma cmd_word_word w : cmd_word w = true -> word w = true.
Proof.
  unfold cmd_word, word. induction w as [|c w IH]; [done|]. simpl.
  intros H. apply andb_true_iff in H as [Hc Hw]. rewrite IH by done.
  unfold cmd_char in Hc. apply andb_true_iff in Hc as [-> _]. done.
Qed.

Lemma cmd_word_plain w : cmd_word w = true -> plain w = true.
Proof.
  unfold cmd_word, plain. induction w as [|c w IH]; [done|]. simpl.
  intros H. apply andb_true_iff in H as [Hc Hw]. rewrite IH by done.
  unfold cmd_char, word_char, plain_char in *.
  destruct (is_sep c), (Ascii.eqb c dquote), (Ascii.eqb c " "); done.
Qed.

Lemma cmd_text_plain ws rest :
  Forall (fun w => cmd_word w = true) ws -> plain rest = true ->
  plain (cmd_text ws rest) = true.
Proof.
  intros Hws Hrest. unfold cmd_text.
  induction Hws as [|w ws Hw _ IH]; [done|].
  cbn [map join_args show]. pose proof (cmd_word_plain w Hw) as Hp. unfold plain in *.
  rewrite all_chars_app, Hp. simpl. exact IH.
Qed.

Lemma cmd_words_ok ws :
  Forall (fun w => cmd_word w = true) ws ->
  Forall (fun a => arg_ok a = true) (map Bare ws).
Proof.
  intros H. apply Forall_fmap. eapply Forall_impl; [exact H|].
  intros w Hw. by apply cmd_word_word.
Qed.

Lemma map_value_Bare ws : map value (map Bare ws) = ws.
Proof. induction ws as [|w ws IH]; [done|]. simpl. by rewrite IH. Qed.

Lemma segs_plain_end w cur out bg :
  plain w = true ->
  segs w false false cur out bg = (cur +:+ w, out, has_amp w || bg).
Proof.
  intros Hw. pose proof (segs_plain w EmptyString cur out bg Hw) as H.
  by rewrite app_nil_r in H.
Qed.

(** The scan of a line typed the usual way. *)
Lemma segs_usual_line cmds last : forall out bg,
  Forall (fun ws => ws <> [] /\ Forall (fun w => cmd_word w = true) ws) cmds ->
  plain last = true ->
  exists bg',
    segs (usual_line cmds last) false false EmptyString out bg
    = (last, out ++ map (fun ws => cmd_text ws EmptyString) cmds, bg').
Proof.
  induction cmds as [|ws cmds IH]; intros out bg Hcmds Hlast.
  - cbn [usual_line map]. rewrite segs_plain_end by done.
    rewrite app_nil_l, List.app_nil_r. by eexists.
  - inversion Hcmds as [|? ? [Hne Hws] Hcmds']; subst.
    cbn [usual_line map]. rewrite segs_plain by (by apply cmd_text_plain).
    rewrite app_nil_l. cbn [segs begins_with_space].
    change (Ascii.eqb "|" "&") with false. change (Ascii.eqb " " "&") with false.
    change (is_sep "|") with true. change (is_sep " ") with false.
    change (Ascii.eqb " " " ") with true. change (Ascii.eqb " " dquote) with false.
    cbv iota.
    destruct (IH (out ++ [cmd_text ws EmptyString])
                (has_amp (cmd_text ws EmptyString) || bg) Hcmds' Hlast) as (bg' & ->).
    exists bg'. by rewrite <- List.app_assoc.
Qed.

Lemma size_usual_line cmds last : size last <= size (usual_line cmds last).
Proof.
  induction cmds as [|ws cmds IH]; [done|].
  cbn [usual_line]. rewrite size_app, !size_cons. lia.
Qed.

Lemma tokens_of_cmd_text ws :
  ws <> [] -> Forall (fun w => cmd_word w = true) ws ->
  tokens_of (cmd_text ws EmptyString) = ws.
Proof.
  intros Hne Hws. unfold tokens_of, cmd_text.
  rewrite toks_join_args by (by apply cmd_words_ok).
  cbn [toks]. rewrite List.app_nil_l, map_value_Bare.
  rewrite lt_size_minus_1_ge; [done| |change (size EmptyString) with 0; lia].
  apply size_pos. destruct ws as [|w ws]; [done|]. apply join_args_nonempty.
Qed.

End usual_lines.

(** X16: a line typed the usual way is taken apart into what was typed.
    With the words of each command separated by single spaces, the commands
    by a space, a bar and a space, no quotes, and a last word of two or more
    characters, [splitByPipe] gives one segment per command, each segment
    but the last with the space typed before the bar, and [tokenize] gives
    back the words of every segment; the background flag is set when an [&]
    occurs anywhere in the line. *)
Theorem usual_line_round_trip (cmds : list (list string)) (init : list string)
    (final : string) :
  Forall (fun ws => ws <> [] /\ Forall (fun w => cmd_word w = true) ws) cmds ->
  Forall (fun w => cmd_word w = true) init ->
  cmd_word final = true -> 2 <= size final ->
  (Z.of_nat (size (usual_line cmds (cmd_text init final))) < 2 ^ 31)%Z ->
  parse_line (usual_line cmds (cmd_text init final))
  = Some (map (fun ws => cmd_text ws EmptyString) cmds ++ [cmd_text init final],
          unquoted_amp false (usual_line cmds (cmd_text init final))) /\
  Forall (fun ws => tokenize (cmd_text ws EmptyString) = Some ws) cmds /\
  tokenize (cmd_text init final) = Some (init ++ [final]).
Proof.
  intros Hcmds Hinit Hfinal H2 Hsz.
  assert (Hlast : plain (cmd_text init final) = true)
    by (apply cmd_text_plain; [done|by apply cmd_word_plain]).
  pose proof (size_usual_line cmds (cmd_text init final)) as Hle.
  assert (Hfin : size final <= size (cmd_text init final)).
  { unfold cmd_text. rewrite join_args_app, size_app. lia. }
  split; [|split].
  - rewrite parse_line_segs.
    pose proof (segs_background (usual_line cmds (cmd_text init final)) false false
                  EmptyString [] false) as Hbg.
    destruct (segs_usual_line cmds (cmd_text init final) [] false Hcmds Hlast) as (bg' & E).
    rewrite E in *. cbn [fst snd] in Hbg. rewrite orb_false_r in Hbg. subst bg'.
    rewrite List.app_nil_l.
    by rewrite lt_size_minus_1_lt by lia.
  - eapply Forall_impl; [exact Hcmds|]. intros ws [Hne Hws].
    rewrite tokenize_toks. f_equal. by apply tokens_of_cmd_text.
  - rewrite tokenize_toks. f_equal.
    pose proof (tokens_of_join_args (map Bare init) (Bare final)) as Ht.
    cbn [show value arg_ok kept_at_end] in Ht. fold (cmd_text init final) in Ht.
    rewrite Ht; [|by apply cmd_words_ok|by apply cmd_word_word| |lia].
    + rewrite map_value_Bare. by destruct (Nat.leb_spec 2 (size final)); [|lia].
    + intros E. rewrite E in Hfin. change (size EmptyString) with 0 in Hfin. lia.
Qed.

Lemma usual_line_round_trip_witness :
  parse_line "ls -l /tmp | grep txt | wc -l"
  = Some (["ls -l /tmp "; "grep txt "; "wc -l"], false) /\
  Forall (fun ws => tokenize (cmd_text ws EmptyString) = Some ws)
    [["ls"; "-l"; "/tmp"]; ["grep"; "txt"]] /\
  tokenize "wc -l" = Some ["wc"; "-l"].
Proof.
  apply (usual_line_round_trip [["ls"; "-l"; "/tmp"]; ["grep"; "txt"]] ["wc"] "-l").
  - repeat constructor; done.
  - repeat constructor.
  - by vm_compute.
  - vm_compute. lia.
  - by vm_compute.
Defined.

Section separators.

Lemma begins_with_space_bars s : begins_with_space (bars s) = begins_with_space s.
Proof. destruct s as [|c r]; [done|]. simpl. by destruct (Ascii.eqb_spec c ";") as [->|]. Qed.

Lemma size_bars s : size (bars s) = size s.
Proof. induction s as [|c r IH]; [done|]. cbn [bars]. by rewrite !size_cons, IH. Qed.

Lemma segs_bars s : forall skip cur out bg,
  noq s = true ->
  segs (bars s) false skip cur out bg = segs s false skip cur out bg.
Proof.
  induction s as [|c r IH]; intros skip cur out bg Hs; [done|].
  apply noq_cons in Hs as [Hc Hr]. cbn [bars].
  destruct (Ascii.eqb_spec c ";") as [->|Hsemi]; cbn [segs].
  - change (Ascii.eqb "|" "&") with false. change (Ascii.eqb ";" "&") with false.
    change (is_sep "|") with true. change (is_sep ";") with true. cbv iota.
    by rewrite begins_with_space_bars, IH.
  - destruct (is_sep c); [by rewrite begins_with_space_bars, IH|].
    destruct (Ascii.eqb_spec c dquote); [done|]. by rewrite IH.
Qed.

End separators.

(** X17: [splitByPipe] does not tell a semicolon from a bar: on a line
    without quotes, turning every [;] into [|] changes nothing in what it
    returns, so the commands of [a ; b] are started as those of [a | b]
    are, the first writing into a pipe that the second reads. *)
Theorem semicolon_is_a_bar (line : string) :
  noq line = true ->
  splitByPipe (bars line) = splitByPipe line /\
  parse_line (bars line) = parse_line line.
Proof.
  intros Hq.
  assert (H : splitByPipe (bars line) = splitByPipe line).
  { rewrite !splitByPipe_segs. f_equal. unfold segments_of.
    rewrite segs_bars by done.
    destruct (segs line false false EmptyString [] false) as [[cur out] bg].
    unfold lt_size_minus_1, size_minus_1. by rewrite size_bars. }
  split; [done|]. unfold parse_line. by rewrite H.
Qed.

Lemma semicolon_is_a_bar_witness :
  splitByPipe "make ; ls -l" = splitByPipe "make | ls -l" /\
  parse_line "make ; ls -l" = parse_line "make | ls -l".
Proof. apply (semicolon_is_a_bar "make ; ls -l"). by vm_compute. Defined.

(** X18: how a command gets into the background.  For a command typed as
    words with single spaces and a final [&] after a space, the line is one
    segment with the flag set, and the child does not hand the [&] to the
    program: being the last token and one character long, it is left out by
    the final guard of [tokenize].  With one more space after the [&] it is
    handed over as the last argument. *)
Theorem background_ampersand (ws : list string) :
  ws <> [] -> Forall (fun w => cmd_word w = true) ws ->
  (Z.of_nat (size (cmd_text ws "& ")) < 2 ^ 31)%Z ->
  parse_line (cmd_text ws "&") = Some ([cmd_text ws "&"], true) /\
  run_cmd (cmd_text ws "&") true = Some (run_cmd_tokens ws true) /\
  parse_line (cmd_text ws "& ") = Some ([cmd_text ws "& "], true) /\
  run_cmd (cmd_text ws "& ") true = Some (run_cmd_tokens (ws ++ ["&"]) true).
Proof.
  intros Hne Hws Hsz.
  assert (Hsize : forall rest, size (cmd_text ws rest) = size (cmd_text ws EmptyString) + size rest).
  { intros rest. unfold cmd_text. by rewrite join_args_app, size_app. }
  assert (Hpos : 1 <= size (cmd_text ws EmptyString)).
  { apply size_pos. unfold cmd_text. destruct ws as [|w ws]; [done|]. apply join_args_nonempty. }
  assert (Hamp : forall rest, has_amp (cmd_text ws (String "&" rest)) = true).
  { intros rest. unfold cmd_text. rewrite join_args_app, has_amp_app. simpl.
    by rewrite orb_true_r. }
  rewrite Hsize in Hsz. change (size "& ") with 2 in Hsz.
  split; [|split; [|split]].
  - rewrite parse_line_plain; [by rewrite Hamp|by apply cmd_text_plain| |];
      rewrite Hsize; change (size "&") with 1; lia.
  - unfold run_cmd. rewrite tokenize_toks. cbn [mbind option_bind]. do 2 f_equal.
    pose proof (tokens_of_join_args (map Bare ws) (Bare "&")) as Ht.
    cbn [show value arg_ok kept_at_end] in Ht. fold (cmd_text ws "&") in Ht.
    rewrite Ht; [|by apply cmd_words_ok|done| |].
    + change (2 <=? size "&") with false. cbv iota. by rewrite List.app_nil_r, map_value_Bare.
    + intros E. pose proof (Hsize "&") as Hs. rewrite E in Hs.
      change (size EmptyString) with 0 in Hs. lia.
    + rewrite Hsize. change (size "&") with 1. lia.
  - rewrite parse_line_plain; [by rewrite Hamp|by apply cmd_text_plain| |];
      rewrite Hsize; change (size "& ") with 2; lia.
  - unfold run_cmd. rewrite tokenize_toks. cbn [mbind option_bind]. do 2 f_equal.
    replace (cmd_text ws "& ") with (cmd_text (ws ++ ["&"]) EmptyString).
    2:{ unfold cmd_text. rewrite map_app. clear.
        induction (map Bare ws) as [|a l IH]; [done|]. cbn [app join_args]. by rewrite IH. }
    apply tokens_of_cmd_text; [by destruct ws|].
    apply Forall_app. split; [done|]. by repeat constructor.
Qed.

Lemma background_ampersand_witness :
  parse_line "sleep 5 &" = Some (["sleep 5 &"], true) /\
  run_cmd "sleep 5 &" true = Some (run_cmd_tokens ["sleep"; "5"] true) /\
  parse_line "sleep 5 & " = Some (["sleep 5 & "], true) /\
  run_cmd "sleep 5 & " true = Some (run_cmd_tokens (["sleep"; "5"] ++ ["&"]) true).
Proof.
  apply (background_ampersand ["sleep"; "5"]).
  - done.
  - repeat constructor.
  - by vm_compute.
Defined.
